(** * AR cards: game-plugin lifecycle, engine event bus and registry

    A shallow embedding of the JavaScript sources

      - [src/utils/GameEngine.js]   (two variants of the base engine),
      - [src/games/SimpleARGame.js] ([SimpleARGameEngine]),
      - [src/utils/GameRegistry.js] ([GameRegistry]),

    followed by the properties of the specification that concern them.

    Conventions of the embedding.
      - A method is a computation in the monad [Js E S]: it reads and
        updates the receiver [this : S], may complete normally or by a
        thrown [Error], and emits observable effects of type [E]
        (callback invocations, dispatched DOM events, calls made on
        collaborators).  Updates made before a [throw] persist, as in
        JavaScript.
      - [terminal.log] lines are not modelled, except that every entry
        into [notifyObservers] is recorded (the source logs it).
      - [Date.now()] and [Math.random()] are read from an [Env] given to
        each call.
      - Observer callbacks are opaque: a callback either returns or throws;
        it does not call back into the engine that is notifying it.
      - Counts and capacities ([maxObjects], colours, coordinates) are
        integers; numeric payloads are carried, never computed on.
      - An object used as a bag of properties (a player, [gameData]) is a
        finite map from property names to values; the spread
        [{ ...a, k: v }] is map union and insertion. *)

From Stdlib Require Import ZArith String List Lia.
From stdpp Require Import gmap strings list fin_maps pretty.

Local Open Scope Z_scope.
Local Open Scope string_scope.
Local Open Scope list_scope.

(** ** JavaScript prelude *)

Module Js.

(** Primitive values stored in object properties. *)
Inductive Val : Type :=
| VUndefined
| VNull
| VBool (b : bool)
| VNum (n : Z)
| VStr (s : string).

#[global] Instance Val_eq_dec : EqDecision Val.
Proof. solve_decision. Defined.

(** [!!v] *)
Definition truthy (v : Val) : bool :=
  match v with
  | VUndefined | VNull => false
  | VBool b => b
  | VNum n => negb (Z.eqb n 0)
  | VStr s => negb (String.eqb s "")
  end.

(** An optional string property: [None] is [undefined]. *)
Definition truthy_str (o : option string) : bool :=
  match o with
  | Some s => negb (String.eqb s "")
  | None => false
  end.

(** [o || d] for an optional string property. *)
Definition or_str (o : option string) (d : string) : string :=
  match o with
  | Some s => if String.eqb s "" then d else s
  | None => d
  end.

(** [o || d] for an optional numeric property. *)
Definition or_num (o : option Z) (d : Z) : Z :=
  match o with
  | Some n => if Z.eqb n 0 then d else n
  | None => d
  end.

(** How a call completes. *)
Inductive Completion (A : Type) : Type :=
| Normal (a : A)
| Throw (msg : string).
Arguments Normal {A} a.
Arguments Throw {A} msg.

(** Readings of the ambient clock and random source during one call. *)
Record Env : Type := mkEnv {
  now : Z;                 (* Date.now() *)
  random_id : string;      (* Math.random().toString(36).substr(2, 9) *)
  random_color : Z         (* Math.random() * 0xffffff *)
}.

Section Monad.
Context {E S : Type}.

Definition Js (A : Type) : Type := S -> Completion A * S * list E.

Definition ret {A} (a : A) : Js A := fun s => (Normal a, s, []).

Definition bind {A B} (m : Js A) (k : A -> Js B) : Js B :=
  fun s =>
    match m s with
    | (Normal a, s1, t1) =>
        let '(r, s2, t2) := k a s1 in (r, s2, t1 ++ t2)
    | (Throw msg, s1, t1) => (Throw msg, s1, t1)
    end.

Definition throw {A} (msg : string) : Js A := fun s => (Throw msg, s, []).

(** [try { m } catch (error) { h error.message }] *)
Definition try_catch {A} (m : Js A) (h : string -> Js A) : Js A :=
  fun s =>
    match m s with
    | (Throw msg, s1, t1) =>
        let '(r, s2, t2) := h msg s1 in (r, s2, t1 ++ t2)
    | done => done
    end.

(** A call on an external object, completing as given. *)
Definition complete {A} (c : Completion A) : Js A := fun s => (c, s, []).

Definition this : Js S := fun s => (Normal s, s, []).
Definition modify (f : S -> S) : Js unit := fun s => (Normal tt, f s, []).
Definition emit (e : E) : Js unit := fun s => (Normal tt, s, [e]).

(** [xs.forEach(x => body x)] *)
Fixpoint forEach {A} (xs : list A) (body : A -> Js unit) : Js unit :=
  match xs with
  | [] => ret tt
  | x :: rest => bind (body x) (fun _ => forEach rest body)
  end.
End Monad.

Arguments Js : clear implicits.

(** The receiver as a call leaves it, and what the call emitted. *)
Definition state_after {E S A} (m : Js E S A) (s : S) : S := (m s).1.2.
Definition emitted {E S A} (m : Js E S A) (s : S) : list E := (m s).2.

(** A computation keeps a property of the receiver, however it completes. *)
Definition preserves {E S A} (P : S -> Prop) (m : Js E S A) : Prop :=
  forall s, P s -> P (state_after m s).

(** Run a method of a base class on the base part of a derived object. *)
Definition lift {E S T A} (proj : T -> S) (upd : S -> T -> T)
    (m : Js E S A) : Js E T A :=
  fun t => let '(r, s, tr) := m (proj t) in (r, upd s t, tr).

End Js.

Import Js.

Declare Scope js_scope.
Delimit Scope js_scope with js.
Notation "x <- m ;; k" := (bind m (fun x => k))
  (at level 100, m at next level, right associativity) : js_scope.
Notation "m ;; k" := (bind m (fun _ => k))
  (at level 100, right associativity) : js_scope.
Local Open Scope js_scope.

(** ** [GameEngine], second variant: the abstract base class *)

Module GameEngine.

(** A player object [{ id, ...playerData, joinedAt }]. *)
Abbreviation Player := (gmap string Val).

(** An entry of [SimpleARGameEngine.placedObjects]. *)
Record PlacedObject : Type := mkPlaced {
  po_id : string;
  po_playerId : string;
  po_position : Z * Z * Z;
  po_type : string;
  po_color : Z;
  po_createdAt : Z
}.

(** What [serializeState] returns and [deserializeState] reads; a
    property that may be absent is an [option]. *)
Record Snapshot : Type := mkSnapshot {
  s_gameId : string;
  s_gameState : string;
  s_players : option (list Player);
  s_placedObjects : option (list PlacedObject);
  s_maxObjects : option Z
}.

(** The [data] argument of [notifyObservers], by call site.  None of
    these objects has a property named like one of the four that
    [notifyObservers] sets itself, so the spread [...data] overrides
    none of them.  A [splice(i, 1)[0]] is [None] when nothing was
    removed. *)
Inductive Payload : Type :=
| PlayerData (playerId : string) (player : option Player)
| StateChange (previousState newState : string)
| ObjectData (object : option PlacedObject) (totalObjects : nat)
| StateRestored (serializedState : Snapshot)
| NoData.

(** [eventData = { gameId, eventType, timestamp, gameState, ...data }] *)
Record Event : Type := mkEvent {
  ev_gameId : string;
  ev_eventType : string;
  ev_timestamp : Z;
  ev_gameState : string;
  ev_data : Payload
}.

(** A subscriber: a function value with its identity; [obs_call ev] is
    [Some msg] when the call throws [Error(msg)]. *)
Record Observer : Type := mkObserver {
  obs_ref : nat;
  obs_call : Event -> option string
}.

Inductive Effect : Type :=
| Notifying (count : nat) (eventType : string)
| Invoked (ref : nat) (ev : Event)
| ConsoleError (msg : string).

Record GameEngine : Type := mkEngine {
  gameId : string;
  gameState : string;
  observers : list Observer;      (* a Set, in insertion order *)
  players : list Player;
  currentPlayer : option Player;
  gameData : gmap string Val
}.

Definition set_gameState (v : string) (e : GameEngine) : GameEngine :=
  mkEngine (gameId e) v (observers e) (players e) (currentPlayer e) (gameData e).
Definition set_observers (v : list Observer) (e : GameEngine) : GameEngine :=
  mkEngine (gameId e) (gameState e) v (players e) (currentPlayer e) (gameData e).
Definition set_players (v : list Player) (e : GameEngine) : GameEngine :=
  mkEngine (gameId e) (gameState e) (observers e) v (currentPlayer e) (gameData e).
Definition set_currentPlayer (v : option Player) (e : GameEngine) : GameEngine :=
  mkEngine (gameId e) (gameState e) (observers e) (players e) v (gameData e).
Definition set_gameData (v : gmap string Val) (e : GameEngine) : GameEngine :=
  mkEngine (gameId e) (gameState e) (observers e) (players e) (currentPlayer e) v.

Abbreviation M := (Js Effect GameEngine).

Definition constructor (gameId : string) : GameEngine :=
  mkEngine gameId "initialized" [] [] None ∅.

(** *** Observer pattern *)

Definition has_ref (r : nat) (os : list Observer) : bool :=
  existsb (fun o => Nat.eqb (obs_ref o) r) os.

(** [addObserver]: the argument is [None] when it is not a function. *)
Definition addObserver (observer : option Observer) : M unit :=
  match observer with
  | None => throw "Observer must be a function"
  | Some o =>
      modify (fun e =>
        if has_ref (obs_ref o) (observers e) then e
        else set_observers (observers e ++ [o]) e)
  end.

Definition removeObserver (o : Observer) : M unit :=
  modify (fun e =>
    set_observers
      (filter (fun o' => obs_ref o' ≠ obs_ref o) (observers e)) e).

(** [observer(eventData)] *)
Definition call (o : Observer) (ev : Event) : M unit :=
  emit (Invoked (obs_ref o) ev) ;;
  match obs_call o ev with
  | None => ret tt
  | Some msg => throw msg
  end.

Definition notifyObservers (env : Env) (eventType : string)
    (data : Payload) : M unit :=
  e <- this ;;
  let eventData :=
    mkEvent (gameId e) eventType (now env) (gameState e) data in
  emit (Notifying (length (observers e)) eventType) ;;
  forEach (observers e) (fun observer =>
    try_catch (call observer eventData)
              (fun msg => emit (ConsoleError msg))).

(** *** Player roster *)

(** [p.id === playerId] *)
Definition has_id (playerId : string) (p : Player) : bool :=
  bool_decide (p !! "id" = Some (VStr playerId)).

(** [xs.findIndex(f)]: [None] stands for [-1]. *)
Fixpoint findIndex {A} (f : A -> bool) (xs : list A) : option nat :=
  match xs with
  | [] => None
  | x :: rest => if f x then Some O else S <$> findIndex f rest
  end.

(** [{ id: playerId, ...playerData, joinedAt: Date.now() }] *)
Definition new_player (env : Env) (playerId : string)
    (playerData : gmap string Val) : Player :=
  <["joinedAt" := VNum (now env)]> (playerData ∪ {["id" := VStr playerId]}).

Definition addPlayer (env : Env) (playerId : string)
    (playerData : gmap string Val) : M bool :=
  e <- this ;;
  match find (has_id playerId) (players e) with
  | Some _ => ret false
  | None =>
      let player := new_player env playerId playerData in
      modify (set_players (players e ++ [player])) ;;
      notifyObservers env "playerAdded" (PlayerData playerId (Some player)) ;;
      ret true
  end.

Definition removePlayer (env : Env) (playerId : string) : M bool :=
  e <- this ;;
  match findIndex (has_id playerId) (players e) with
  | None => ret false
  | Some playerIndex =>
      (* const player = this.players.splice(playerIndex, 1)[0] *)
      let player := players e !! playerIndex in
      modify (set_players (delete playerIndex (players e))) ;;
      notifyObservers env "playerRemoved" (PlayerData playerId player) ;;
      ret true
  end.

Definition getPlayer (playerId : string) (e : GameEngine) : option Player :=
  find (has_id playerId) (players e).

Definition hasPlayer (playerId : string) (e : GameEngine) : bool :=
  existsb (has_id playerId) (players e).

(** *** State machine *)

(** [setState(newState)]; every call in the sources leaves
    [additionalData] at its default [{}]. *)
Definition setState (env : Env) (newState : string) : M unit :=
  e <- this ;;
  let previousState := gameState e in
  modify (set_gameState newState) ;;
  notifyObservers env "stateChanged" (StateChange previousState newState).

(** [validateState(expectedStates)] with an array argument. *)
Definition validateState (expectedStates : list string) (e : GameEngine) : bool :=
  existsb (String.eqb (gameState e)) expectedStates.

Definition cleanup (env : Env) : M unit :=
  modify (set_observers []) ;;
  modify (set_players []) ;;
  modify (set_currentPlayer None) ;;
  modify (set_gameData ∅) ;;
  setState env "cleanup".

(** *** Reading a trace *)

(** The callbacks invoked, in order, each with the event it received. *)
Definition invocations (t : list Effect) : list (nat * Event) :=
  omap (fun x => match x with Invoked r ev => Some (r, ev) | _ => None end) t.

(** The event types of the [notifyObservers] calls made, in order. *)
Definition published (t : list Effect) : list string :=
  omap (fun x => match x with Notifying _ ty => Some ty | _ => None end) t.

(** What one delivery emits: the invocation and, when the callback
    throws, the logged error. *)
Definition delivery (ev : Event) (o : Observer) : list Effect :=
  Invoked (obs_ref o) ev ::
  match obs_call o ev with
  | Some msg => [ConsoleError msg]
  | None => []
  end.

(** *** Further roster methods *)

(** [getNextPlayer(currentPlayerId)]: [None] is [null]. *)
Definition getNextPlayer (currentPlayerId : string) (e : GameEngine)
    : option Player :=
  match findIndex (has_id currentPlayerId) (players e) with
  | None => None
  | Some currentIndex =>
      let nextIndex := ((currentIndex + 1) mod length (players e))%nat in
      players e !! nextIndex
  end.

(** How many times the callback [ref] was invoked in a trace. *)
Definition deliveries_to (ref : nat) (t : list Effect) : nat :=
  length (filter (fun x => x.1 = ref) (invocations t)).

(** No function is held twice: what a [Set] guarantees. *)
Definition distinct_observers (e : GameEngine) : Prop :=
  NoDup (map obs_ref (observers e)).

End GameEngine.

(** ** [GameEngine], first variant: the engine with a game loop

    The first of the two versions of [src/utils/GameEngine.js]: the roster
    is a [Map] keyed by player id, the observers are an array, and a
    callback receives [(event, { ...data, gameId })].  The frame loop that
    [start] schedules with [requestAnimationFrame], and the
    [lastUpdateTime] it reads, are outside the model; the iteration order
    of the [Map] is not modelled. *)

Module GameEngine1.

Abbreviation Player := (gmap string Val).

Inductive Payload : Type :=
| PlayerData (playerId : string) (player : Player)
| StateChange (oldState newState : string)
| NoData.

(** The two arguments of a callback. *)
Record Event : Type := mkEvent {
  ev_event : string;
  ev_data : Payload;
  ev_gameId : string
}.

Record Observer : Type := mkObserver {
  obs_ref : nat;
  obs_call : Event -> option string
}.

Inductive Effect : Type :=
| Notifying (count : nat) (event : string)
| Invoked (ref : nat) (ev : Event)
| ConsoleError (msg : string).

Record GameEngine : Type := mkEngine {
  gameId : string;
  state : string;
  players : gmap string Player;
  observers : list Observer;        (* an array: duplicates allowed *)
  isRunning : bool
}.

Definition set_state (v : string) (e : GameEngine) : GameEngine :=
  mkEngine (gameId e) v (players e) (observers e) (isRunning e).
Definition set_players (v : gmap string Player) (e : GameEngine) : GameEngine :=
  mkEngine (gameId e) (state e) v (observers e) (isRunning e).
Definition set_observers (v : list Observer) (e : GameEngine) : GameEngine :=
  mkEngine (gameId e) (state e) (players e) v (isRunning e).
Definition set_isRunning (v : bool) (e : GameEngine) : GameEngine :=
  mkEngine (gameId e) (state e) (players e) (observers e) v.

Abbreviation M := (Js Effect GameEngine).

Definition constructor (gameId : string) : GameEngine :=
  mkEngine gameId "initialized" ∅ [] false.

(** [addObserver]: the argument is [None] when it is not a function. *)
Definition addObserver (observer : option Observer) : M bool :=
  match observer with
  | None => ret false
  | Some o =>
      e <- this ;;
      modify (set_observers (observers e ++ [o])) ;;
      ret true
  end.

(** [this.observers.indexOf(observer)] *)
Fixpoint indexOf (r : nat) (os : list Observer) : option nat :=
  match os with
  | [] => None
  | o :: rest => if Nat.eqb (obs_ref o) r then Some O else S <$> indexOf r rest
  end.

Definition removeObserver (o : Observer) : M bool :=
  e <- this ;;
  match indexOf (obs_ref o) (observers e) with
  | Some index =>
      modify (set_observers (delete index (observers e))) ;;
      ret true
  | None => ret false
  end.

(** [observer(event, { ...data, gameId: this.gameId })] *)
Definition call (o : Observer) (ev : Event) : M unit :=
  emit (Invoked (obs_ref o) ev) ;;
  match obs_call o ev with
  | None => ret tt
  | Some msg => throw msg
  end.

Definition notifyObservers (event : string) (data : Payload) : M unit :=
  e <- this ;;
  emit (Notifying (length (observers e)) event) ;;
  forEach (observers e) (fun observer =>
    try_catch (call observer (mkEvent event data (gameId e)))
              (fun msg => emit (ConsoleError msg))).

(** [{ id: playerId, joinedAt: Date.now(), ...playerData }] *)
Definition new_player (env : Env) (playerId : string)
    (playerData : gmap string Val) : Player :=
  playerData ∪ <["joinedAt" := VNum (now env)]> {["id" := VStr playerId]}.

(** Returns the player object. *)
Definition addPlayer (env : Env) (playerId : string)
    (playerData : gmap string Val) : M Player :=
  let player := new_player env playerId playerData in
  modify (fun e => set_players (<[playerId := player]> (players e)) e) ;;
  notifyObservers "playerAdded" (PlayerData playerId player) ;;
  ret player.

Definition removePlayer (playerId : string) : M bool :=
  e <- this ;;
  match players e !! playerId with
  | None => ret false
  | Some player =>
      modify (set_players (delete playerId (players e))) ;;
      notifyObservers "playerRemoved" (PlayerData playerId player) ;;
      ret true
  end.

Definition setState (newState : string) : M unit :=
  e <- this ;;
  let oldState := state e in
  modify (set_state newState) ;;
  notifyObservers "stateChanged" (StateChange oldState newState).

Definition start : M unit :=
  e <- this ;;
  if isRunning e then ret tt
  else
    modify (set_isRunning true) ;;
    setState "running" ;;
    notifyObservers "gameStarted" NoData.

Definition stop : M unit :=
  e <- this ;;
  if negb (isRunning e) then ret tt
  else
    modify (set_isRunning false) ;;
    setState "stopped" ;;
    notifyObservers "gameStopped" NoData.

Definition cleanup : M unit :=
  stop ;;
  modify (set_observers []) ;;
  modify (set_players ∅) ;;
  notifyObservers "cleanup" NoData.

(** *** Reading a trace *)

Definition invocations (t : list Effect) : list (nat * Event) :=
  omap (fun x => match x with Invoked r ev => Some (r, ev) | _ => None end) t.

Definition published (t : list Effect) : list string :=
  omap (fun x => match x with Notifying _ ty => Some ty | _ => None end) t.

Definition delivery (ev : Event) (o : Observer) : list Effect :=
  Invoked (obs_ref o) ev ::
  match obs_call o ev with
  | Some msg => [ConsoleError msg]
  | None => []
  end.

(** *** Further methods *)

(** [getPlayer(playerId)]: [None] is [null]. *)
Definition getPlayer (playerId : string) (e : GameEngine) : option Player :=
  players e !! playerId.

Definition deliveries_to (ref : nat) (t : list Effect) : nat :=
  length (filter (fun x => x.1 = ref) (invocations t)).

End GameEngine1.

(** ** [SimpleARGameEngine] (src/games/SimpleARGame.js) *)

Module SimpleARGameEngine.
Import GameEngine.

Record SimpleARGameEngine : Type := mkSimple {
  base : GameEngine;                  (* the inherited fields *)
  placedObjects : list PlacedObject;
  maxObjects : Z
}.

Definition set_base (v : GameEngine) (e : SimpleARGameEngine) :=
  mkSimple v (placedObjects e) (maxObjects e).
Definition set_placedObjects (v : list PlacedObject) (e : SimpleARGameEngine) :=
  mkSimple (base e) v (maxObjects e).
Definition set_maxObjects (v : Z) (e : SimpleARGameEngine) :=
  mkSimple (base e) (placedObjects e) v.

Abbreviation M := (Js Effect SimpleARGameEngine).

(** A call of an inherited method. *)
Definition super {A} (m : GameEngine.M A) : M A := lift base set_base m.

Definition constructor : SimpleARGameEngine :=
  mkSimple (GameEngine.constructor "simple-ar") [] 10.

(** The [config] argument of [initializeGame]. *)
Record Config : Type := mkConfig { cfg_maxObjects : option Z }.

(** The [data] argument of [processAction]; every property is optional. *)
Record ActionData : Type := mkData {
  d_position : option (Z * Z * Z);
  d_type : option string;
  d_color : option Z;
  d_objectId : option string
}.

Definition initializeGame (env : Env) (config : Config) : M bool :=
  modify (set_maxObjects (or_num (cfg_maxObjects config) 10)) ;;
  modify (set_placedObjects []) ;;
  super (setState env "playing") ;;
  ret true.

(** [data] is [None] when the caller passes [undefined]: reading a
    property of it throws a [TypeError]. *)
Definition handlePlaceObject (env : Env) (playerId : string)
    (data : option ActionData) : M bool :=
  e <- this ;;
  if Z.of_nat (length (placedObjects e)) >=? maxObjects e then ret false
  else
    match data with
    | None => throw "TypeError: Cannot read properties of undefined"
    | Some data =>
        let objectId := "obj_" +:+ pretty (now env) +:+ "_" +:+ random_id env in
        let placedObject :=
          mkPlaced objectId playerId
            (default (0, 0, 0) (d_position data))
            (or_str (d_type data) "cube")
            (or_num (d_color data) (random_color env))
            (now env) in
        modify (set_placedObjects (placedObjects e ++ [placedObject])) ;;
        super (notifyObservers env "objectPlaced"
                 (ObjectData (Some placedObject)
                             (length (placedObjects e ++ [placedObject])))) ;;
        ret true
    end.

(** [obj.id === data.objectId] *)
Definition is_object (objectId : option string) (obj : PlacedObject) : bool :=
  match objectId with
  | Some i => String.eqb (po_id obj) i
  | None => false
  end.

Definition handleRemoveObject (env : Env) (playerId : string)
    (data : option ActionData) : M bool :=
  e <- this ;;
  match data with
  | None => throw "TypeError: Cannot read properties of undefined"
  | Some data =>
      match findIndex (is_object (d_objectId data)) (placedObjects e) with
      | None => ret false
      | Some objectIndex =>
          let removedObject := placedObjects e !! objectIndex in
          let remaining := delete objectIndex (placedObjects e) in
          modify (set_placedObjects remaining) ;;
          super (notifyObservers env "objectRemoved"
                   (ObjectData removedObject (length remaining))) ;;
          ret true
      end
  end.

Definition processAction (env : Env) (playerId action : string)
    (data : option ActionData) : M bool :=
  e <- this ;;
  if negb (validateState ["playing"] (base e)) then ret false
  else if String.eqb action "placeObject" then handlePlaceObject env playerId data
  else if String.eqb action "removeObject" then handleRemoveObject env playerId data
  else ret false.

Definition getValidActions (playerId : string) (e : SimpleARGameEngine)
    : list string :=
  if negb (validateState ["playing"] (base e)) then []
  else if (0 <? length (placedObjects e))%nat then ["placeObject"; "removeObject"]
  else ["placeObject"].


Definition deserializeState (env : Env) (serializedState : Snapshot) : M unit :=
  super (modify (set_gameState (s_gameState serializedState))) ;;
  super (modify (set_players (default [] (s_players serializedState)))) ;;
  modify (set_placedObjects (default [] (s_placedObjects serializedState))) ;;
  modify (set_maxObjects (or_num (s_maxObjects serializedState) 10)) ;;
  super (notifyObservers env "stateRestored" (StateRestored serializedState)).

(** The inherited [cleanup]; the class does not override it. *)
Definition cleanup (env : Env) : M unit := super (GameEngine.cleanup env).

(** *** Reachable engines *)

(** A method call on the engine, with its arguments. *)
Inductive Call : Type :=
| AddObserver (observer : option Observer)
| RemoveObserver (observer : Observer)
| AddPlayer (playerId : string) (playerData : gmap string Val)
| RemovePlayer (playerId : string)
| SetState (newState : string)
| InitializeGame (config : Config)
| ProcessAction (playerId action : string) (data : option ActionData)
| DeserializeState (serializedState : Snapshot)
| Cleanup.

(** The engine after a call, whether the call returned or threw. *)
Definition after (env : Env) (c : Call) (e : SimpleARGameEngine)
    : SimpleARGameEngine :=
  match c with
  | AddObserver o => state_after (super (addObserver o)) e
  | RemoveObserver o => state_after (super (removeObserver o)) e
  | AddPlayer playerId playerData =>
      state_after (super (addPlayer env playerId playerData)) e
  | RemovePlayer playerId => state_after (super (removePlayer env playerId)) e
  | SetState newState => state_after (super (setState env newState)) e
  | InitializeGame config => state_after (initializeGame env config) e
  | ProcessAction playerId action data =>
      state_after (processAction env playerId action data) e
  | DeserializeState serializedState =>
      state_after (deserializeState env serializedState) e
  | Cleanup => state_after (cleanup env) e
  end.

Inductive reachable : SimpleARGameEngine -> Prop :=
| reachable_new : reachable constructor
| reachable_call env c e : reachable e -> reachable (after env c e).

(** A [processAction] call with the readings of its environment. *)
Record Action : Type := mkAction {
  a_env : Env;
  a_playerId : string;
  a_action : string;
  a_data : option ActionData
}.

(** The engine after a sequence of [processAction] calls. *)
Definition processActions (calls : list Action) (e : SimpleARGameEngine)
    : SimpleARGameEngine :=
  fold_left
    (fun e a =>
       state_after (processAction (a_env a) (a_playerId a) (a_action a) (a_data a)) e)
    calls e.

(** [placedObjects.length <= maxObjects] *)
Definition within_capacity (e : SimpleARGameEngine) : Prop :=
  Z.of_nat (length (placedObjects e)) <= maxObjects e.

(** *** Further methods *)

(** [checkGameEnd()]: the simple game does not end. *)
Definition checkGameEnd (e : SimpleARGameEngine) : option unit := None.

(** The identifier [handlePlaceObject] gives the object it places. *)
Definition object_id (env : Env) : string :=
  "obj_" +:+ pretty (now env) +:+ "_" +:+ random_id env.

End SimpleARGameEngine.

(** ** [GameRegistry] (src/utils/GameRegistry.js)

    The engine and the interface of an instance are whatever the factory
    of the descriptor returns; the registry only calls a few of their
    methods.  Each is described by what the registry observes of it
    during the call at hand.  An [async] method is run to completion:
    overlapping calls are excluded as a caller obligation. *)

Module GameRegistry.

(** [cleanup] is [None] when the object has no such method; the inner
    option is the message of the error the call throws, if it throws. *)
Record EngineObj : Type := mkEngineObj {
  eng_ref : nat;
  eng_cleanup : option (option string)
}.

Record InterfaceObj : Type := mkInterfaceObj {
  if_ref : nat;
  if_isActive : bool;
  if_initialize : Completion bool;
  if_endSession : option string;
  if_cleanup : option (option string)
}.

(** What a factory returns: [{ engine, interface }], either possibly
    missing. *)
Record Produced : Type := mkProduced {
  pr_engine : option EngineObj;
  pr_interface : option InterfaceObj
}.

(** The outcome of [await game.createGame()]. *)
Inductive Factory : Type :=
| Rejects (msg : string)
| Resolves (gameInstance : option Produced).

(** The argument of [registerGame]; every property is optional. *)
Record GameConfig : Type := mkConfig {
  c_id : option string;
  c_name : option string;
  c_description : option string;
  c_isPlayable : option bool;
  c_players : option string;
  c_difficulty : option string;
  c_estimatedTime : option string;
  c_category : option string;
  c_createGame : option Factory
}.

Record Game : Type := mkGame {
  id : string;
  name : string;
  description : string;
  isPlayable : bool;
  players : string;
  difficulty : string;
  estimatedTime : string;
  category : string;
  createGame : option Factory;
  registeredAt : Z
}.

Record ActiveGame : Type := mkActive {
  ag_gameId : string;
  ag_game : Game;
  ag_engine : EngineObj;
  ag_interface : InterfaceObj;
  ag_createdAt : Z
}.

(** The [detail] of a dispatched [CustomEvent]. *)
Inductive Detail : Type :=
| Selected (gameId : string) (game : Game) (previousGameId : option string)
| InstanceCreated (gameId : string) (game : Game) (instance : ActiveGame)
| Session (gameId : string) (game : Game)
| InstanceCleaned (gameId : string).

Inductive Effect : Type :=
| Dispatch (type : string) (detail : Detail)     (* window.dispatchEvent *)
| FactoryCalled (gameId : string)                (* game.createGame() *)
| InitializeCalled (ref : nat)                   (* interface.initialize() *)
| EndSessionCalled (ref : nat)                   (* interface.endSession() *)
| InterfaceCleanupCalled (ref : nat)             (* interface.cleanup() *)
| EngineCleanupCalled (ref : nat)                (* engine.cleanup() *)
| ConsoleError (msg : string).

Record GameRegistry : Type := mkRegistry {
  games : gmap string Game;
  selectedGameId : option string;
  activeGame : option ActiveGame
}.

Definition set_games (v : gmap string Game) (r : GameRegistry) : GameRegistry :=
  mkRegistry v (selectedGameId r) (activeGame r).
Definition set_selectedGameId (v : option string) (r : GameRegistry) : GameRegistry :=
  mkRegistry (games r) v (activeGame r).
Definition set_activeGame (v : option ActiveGame) (r : GameRegistry) : GameRegistry :=
  mkRegistry (games r) (selectedGameId r) v.

Abbreviation M := (Js Effect GameRegistry).

(** The descriptor [registerGame] builds from its argument. *)
Definition new_game (env : Env) (id name : string) (gameConfig : GameConfig) : Game :=
  mkGame id name
    (or_str (c_description gameConfig) "No description available")
    (default false (c_isPlayable gameConfig))
    (or_str (c_players gameConfig) "1")
    (or_str (c_difficulty gameConfig) "Unknown")
    (or_str (c_estimatedTime gameConfig) "Unknown")
    (or_str (c_category gameConfig) "General")
    (c_createGame gameConfig)
    (now env).

Definition registerGame (env : Env) (gameConfig : GameConfig) : M bool :=
  if negb (truthy_str (c_id gameConfig)) || negb (truthy_str (c_name gameConfig))
  then throw "Game registration requires id and name"
  else
    let id := default "" (c_id gameConfig) in
    let name := default "" (c_name gameConfig) in
    let game := new_game env id name gameConfig in
    modify (fun r => set_games (<[id := game]> (games r)) r) ;;
    ret true.

(** [initializeGames]; [simpleAR] is what loading the SimpleARGame module
    and calling its factory yields ([None] when either fails: the wrapper
    catches the error and returns [null]). *)
Definition initializeGames (env : Env) (simpleAR : option Produced) : M unit :=
  registerGame env
    (mkConfig (Some "simple-ar") (Some "Simple AR Test")
       (Some "Place and interact with 3D objects in AR space")
       (Some true) (Some "1") (Some "Easy") (Some "5-10 min") (Some "Demo")
       (Some (Resolves simpleAR))) ;;
  registerGame env
    (mkConfig (Some "uno-ar") (Some "UNO AR")
       (Some "Classic UNO card game in augmented reality")
       (Some false) (Some "2-4") (Some "Medium") (Some "15-30 min")
       (Some "Card Game") None) ;;
  registerGame env
    (mkConfig (Some "poker-ar") (Some "Poker AR")
       (Some "Texas Hold'em poker in AR environment")
       (Some false) (Some "2-8") (Some "Hard") (Some "30-60 min")
       (Some "Card Game") None) ;;
  ret tt.

Definition constructor (env : Env) (simpleAR : option Produced)
    : Completion unit * GameRegistry * list Effect :=
  initializeGames env simpleAR (mkRegistry ∅ None None).

Definition getGame (gameId : string) (r : GameRegistry) : option Game :=
  games r !! gameId.

Definition selectGame (gameId : string) : M bool :=
  r <- this ;;
  match games r !! gameId with
  | None => ret false
  | Some game =>
      let previousSelection := selectedGameId r in
      modify (set_selectedGameId (Some gameId)) ;;
      emit (Dispatch "gameSelected" (Selected gameId game previousSelection)) ;;
      ret true
  end.

Definition getSelectedGame (r : GameRegistry) : option Game :=
  if negb (truthy_str (selectedGameId r)) then None
  else match selectedGameId r with
       | Some i => games r !! i
       | None => None
       end.

Definition getActiveGame (r : GameRegistry) : option ActiveGame := activeGame r.

(** A call on a collaborator: recorded, then it returns or throws. *)
Definition invoke (call : Effect) (throws : option string) : M unit :=
  emit call ;;
  match throws with
  | Some msg => throw msg
  | None => ret tt
  end.

Definition cleanupActiveGame : M unit :=
  r <- this ;;
  match activeGame r with
  | None => ret tt
  | Some active =>
      let interface := ag_interface active in
      let engine := ag_engine active in
      try_catch
        ((if if_isActive interface
          then invoke (EndSessionCalled (if_ref interface)) (if_endSession interface)
          else ret tt) ;;
         match if_cleanup interface with
         | Some throws => invoke (InterfaceCleanupCalled (if_ref interface)) throws
         | None => ret tt
         end ;;
         match eng_cleanup engine with
         | Some throws => invoke (EngineCleanupCalled (eng_ref engine)) throws
         | None => ret tt
         end ;;
         let cleanedGameId := ag_gameId active in
         modify (set_activeGame None) ;;
         emit (Dispatch "gameInstanceCleaned" (InstanceCleaned cleanedGameId)))
        (fun msg => emit (ConsoleError msg))
  end.

(** [await game.createGame()] *)
Definition await_factory (gameId : string) (f : Factory) : M (option Produced) :=
  emit (FactoryCalled gameId) ;;
  match f with
  | Rejects msg => throw msg
  | Resolves gameInstance => ret gameInstance
  end.

(** [gameId || this.selectedGameId] *)
Definition or_selected (gameId selected : option string) : option string :=
  if truthy_str gameId then gameId else selected.

Definition createGameInstance (env : Env) (gameId : option string)
    : M (option ActiveGame) :=
  r <- this ;;
  let target := or_selected gameId (selectedGameId r) in
  match target with
  | None => ret None
  | Some targetGameId =>
      if negb (truthy_str target) then ret None
      else
        match games r !! targetGameId with
        | None => ret None
        | Some game =>
            match isPlayable game, createGame game with
            | true, Some factory =>
                try_catch
                  ((match activeGame r with
                    | Some _ => cleanupActiveGame
                    | None => ret tt
                    end) ;;
                   gameInstance <- await_factory targetGameId factory ;;
                   match gameInstance with
                   | Some (mkProduced (Some engine) (Some interface)) =>
                       let active :=
                         mkActive targetGameId game engine interface (now env) in
                       modify (set_activeGame (Some active)) ;;
                       emit (Dispatch "gameInstanceCreated"
                               (InstanceCreated targetGameId game active)) ;;
                       ret (Some active)
                   | _ =>
                       throw "Invalid game instance created - missing engine or interface"
                   end)
                  (fun msg => emit (ConsoleError msg) ;; ret None)
            | _, _ => ret None
            end
        end
  end.

Definition startActiveGameSession : M bool :=
  r <- this ;;
  match activeGame r with
  | None => ret false
  | Some active =>
      let interface := ag_interface active in
      try_catch
        (emit (InitializeCalled (if_ref interface)) ;;
         success <- complete (if_initialize interface) ;;
         if (success : bool) then
           emit (Dispatch "gameSessionStarted"
                   (Session (ag_gameId active) (ag_game active))) ;;
           ret true
         else ret false)
        (fun msg => emit (ConsoleError msg) ;; ret false)
  end.

Definition endActiveGameSession : M unit :=
  r <- this ;;
  match activeGame r with
  | None => ret tt
  | Some active =>
      let interface := ag_interface active in
      try_catch
        (invoke (EndSessionCalled (if_ref interface)) (if_endSession interface) ;;
         emit (Dispatch "gameSessionEnded"
                 (Session (ag_gameId active) (ag_game active))))
        (fun msg => emit (ConsoleError msg))
  end.

Definition isGamePlayable (gameId : string) (r : GameRegistry) : bool :=
  match games r !! gameId with
  | Some game => isPlayable game
  | None => false
  end.

(** *** Reading a trace *)

(** The types of the events dispatched on [window], in order. *)
Definition dispatched (t : list Effect) : list string :=
  omap (fun x => match x with Dispatch ty _ => Some ty | _ => None end) t.

(** The calls [cleanupActiveGame] makes on the collaborators of an
    instance. *)
Definition teardown_calls (active : ActiveGame) : list Effect :=
  (if if_isActive (ag_interface active)
   then [EndSessionCalled (if_ref (ag_interface active))] else []) ++
  (match if_cleanup (ag_interface active) with
   | Some _ => [InterfaceCleanupCalled (if_ref (ag_interface active))]
   | None => []
   end) ++
  (match eng_cleanup (ag_engine active) with
   | Some _ => [EngineCleanupCalled (eng_ref (ag_engine active))]
   | None => []
   end).


(** The factory does not yield an object with both [engine] and
    [interface]: it throws, returns [null], or omits one of them. *)
Definition factory_fails (f : Factory) : Prop :=
  match f with
  | Rejects _ => True
  | Resolves None => True
  | Resolves (Some (mkProduced (Some _) (Some _))) => False
  | Resolves (Some _) => True
  end.

(** *** Reachable registries *)

Inductive Call : Type :=
| RegisterGame (gameConfig : GameConfig)
| SelectGame (gameId : string)
| CreateGameInstance (gameId : option string)
| StartActiveGameSession
| EndActiveGameSession
| CleanupActiveGame.

Definition after (env : Env) (c : Call) (r : GameRegistry) : GameRegistry :=
  match c with
  | RegisterGame gameConfig => state_after (registerGame env gameConfig) r
  | SelectGame gameId => state_after (selectGame gameId) r
  | CreateGameInstance gameId => state_after (createGameInstance env gameId) r
  | StartActiveGameSession => state_after startActiveGameSession r
  | EndActiveGameSession => state_after endActiveGameSession r
  | CleanupActiveGame => state_after cleanupActiveGame r
  end.

Inductive reachable : GameRegistry -> Prop :=
| reachable_new env simpleAR :
    reachable (state_after (initializeGames env simpleAR) (mkRegistry ∅ None None))
| reachable_call env c r : reachable r -> reachable (after env c r).

(** Every key of the catalog is a non-empty string. *)
Definition keys_truthy (r : GameRegistry) : Prop :=
  forall i g, games r !! i = Some g -> i <> "".

(** *** What holds of every reachable registry *)

(** Every descriptor is stored under its own [id]. *)
Definition well_keyed (r : GameRegistry) : Prop :=
  forall i g, games r !! i = Some g -> id g = i.

(** The selection names a registered game. *)
Definition selection_registered (r : GameRegistry) : Prop :=
  forall i, selectedGameId r = Some i -> is_Some (games r !! i).

(** The active instance was built by the factory of a playable descriptor
    whose [id] is still in the catalog. *)
Definition active_from_catalog (r : GameRegistry) : Prop :=
  forall active,
    activeGame r = Some active ->
    is_Some (games r !! ag_gameId active) /\
    id (ag_game active) = ag_gameId active /\
    isPlayable (ag_game active) = true /\
    is_Some (createGame (ag_game active)).

Definition consistent (r : GameRegistry) : Prop :=
  keys_truthy r /\ well_keyed r /\ selection_registered r /\ active_from_catalog r.

End GameRegistry.

(** ** [ARGameInterface], second variant, and [SimpleARGameInterface]

    The interface that [SimpleARGameInterface] of src/games/SimpleARGame.js
    extends: its constructor takes [(gameId, gameEngine)].  Only what
    binds the interface to its engine is modelled: the subscription, the
    teardown and the routing of a "select" input.  The WebXR session, the
    THREE.js scene and the meshes are external; of the fields that hold
    such objects only whether they are set is kept, and the session is
    seen through the calls made on it.

    The engine is shared with whoever created it, so a method runs on a
    [World]: the interface, the engine its [gameEngine] field refers to,
    and the number of function objects created so far.  Each evaluation
    of [f.bind(this)] creates a new function object; identities are
    numbered in the order of creation. *)

Module ARGameInterface.
Import GameEngine.

(** The reticle of [SimpleARGameInterface]: whether it is shown, and the
    position read off its matrix. *)
Record Reticle : Type := mkReticle {
  visible : bool;
  position : Z * Z * Z
}.

Record ARGameInterface : Type := mkInterface {
  gameId : string;
  gameEngine : bool;              (* [this.gameEngine] is not [null] *)
  session : bool;                 (* [this.session] is not [null] *)
  scene : bool;
  camera : bool;
  isActive : bool;
  exitButton : bool;
  reticle : option Reticle
}.

Record World : Type := mkWorld {
  interface : ARGameInterface;
  engine : SimpleARGameEngine.SimpleARGameEngine;
  functions : nat
}.

Definition set_interface (v : ARGameInterface) (w : World) : World :=
  mkWorld v (engine w) (functions w).
Definition set_engine (v : SimpleARGameEngine.SimpleARGameEngine) (w : World) : World :=
  mkWorld (interface w) v (functions w).
Definition set_functions (v : nat) (w : World) : World :=
  mkWorld (interface w) (engine w) v.

Definition set_gameEngine (v : bool) (i : ARGameInterface) : ARGameInterface :=
  mkInterface (gameId i) v (session i) (scene i) (camera i) (isActive i)
    (exitButton i) (reticle i).
Definition set_scene (v : bool) (i : ARGameInterface) : ARGameInterface :=
  mkInterface (gameId i) (gameEngine i) (session i) v (camera i) (isActive i)
    (exitButton i) (reticle i).
Definition set_camera (v : bool) (i : ARGameInterface) : ARGameInterface :=
  mkInterface (gameId i) (gameEngine i) (session i) (scene i) v (isActive i)
    (exitButton i) (reticle i).

Inductive Effect : Type :=
| OfEngine (x : GameEngine.Effect)        (* emitted by a call on the engine *)
| SessionEnd.                             (* this.session.end() *)

Abbreviation M := (Js Effect World).

(** A call of a method of the engine. *)
Definition on_engine {A} (m : SimpleARGameEngine.M A) : M A :=
  fun w => let '(r, e, t) := m (engine w) in (r, set_engine e w, map OfEngine t).

Section Callback.

(** What [updateGameVisualization] does with an event: it returns, or
    throws with a message.  It is rendering code. *)
Variable updateGameVisualization : Event -> option string.

(** [this.onGameStateChange.bind(this)] *)
Definition bind_onGameStateChange : M Observer :=
  w <- this ;;
  modify (set_functions (S (functions w))) ;;
  ret (mkObserver (functions w) updateGameVisualization).

(** [new SimpleARGameInterface(gameEngine)], called with an engine as
    everywhere in the sources: the fields as the constructors assign
    them, then the subscription. *)
Definition constructor : M unit :=
  modify (set_interface (mkInterface "simple-ar" true false false false false false None)) ;;
  w <- this ;;
  if gameEngine (interface w) then
    observer <- bind_onGameStateChange ;;
    on_engine (SimpleARGameEngine.super (addObserver (Some observer)))
  else ret tt.

Definition endSession : M unit :=
  w <- this ;;
  if session (interface w) then emit SessionEnd else ret tt.

(** [ARGameInterface.cleanup()] *)
Definition cleanup : M unit :=
  w <- this ;;
  (if isActive (interface w) then endSession else ret tt) ;;
  (if gameEngine (interface w) then
     observer <- bind_onGameStateChange ;;
     on_engine (SimpleARGameEngine.super (removeObserver observer))
   else ret tt) ;;
  modify (fun w => set_interface (set_gameEngine false (interface w)) w) ;;
  modify (fun w => set_interface (set_scene false (interface w)) w) ;;
  modify (fun w => set_interface (set_camera false (interface w)) w).

(** The [inputSource] of a select event, and whether it has a gamepad. *)
Record SelectEvent : Type := mkSelect { inputSource : option bool }.

Definition checkExitButtonTap (event : SelectEvent) (i : ARGameInterface) : bool :=
  if negb (exitButton i) then false
  else
    match inputSource event with
    | Some true => false
    | _ => false
    end.

(** [SimpleARGameInterface.handleSelectInteraction]; [color] is its own
    reading of [Math.random() * 0xffffff], [env] the readings of the
    engine during the call. *)
Definition handleSelectInteraction (color : Z) (env : Env) : M unit :=
  w <- this ;;
  match reticle (interface w) with
  | None => ret tt
  | Some r =>
      if negb (visible r) then ret tt
      else if negb (gameEngine (interface w))
      then throw "TypeError: Cannot read properties of null"
      else
        success <- on_engine
          (SimpleARGameEngine.processAction env "local-player" "placeObject"
             (Some (SimpleARGameEngine.mkData (Some (position r)) (Some "cube")
                      (Some color) None))) ;;
        ret tt
  end.

Definition handleGameInteraction (interactionType : string) (color : Z)
    (env : Env) : M unit :=
  if String.eqb interactionType "select" then handleSelectInteraction color env
  else ret tt.

Definition onSelect (event : SelectEvent) (color : Z) (env : Env) : M unit :=
  w <- this ;;
  if checkExitButtonTap event (interface w) then endSession
  else handleGameInteraction "select" color env.

End Callback.

(** Every function subscribed to the engine was created before now. *)
Definition known_functions (w : World) : Prop :=
  Forall (fun o => (obs_ref o < functions w)%nat)
         (observers (SimpleARGameEngine.base (engine w))).

End ARGameInterface.

(** ** The factory of src/games/SimpleARGame.js *)

Module SimpleARGame.

(** A property of the object the factory returns. *)
Inductive Property : Type :=
| AnEngine (e : SimpleARGameEngine.SimpleARGameEngine)
| AnInterface (i : ARGameInterface.ARGameInterface).

(** [createSimpleARGame()]: the object [{ engine, ar_interface }], with
    the effects of building it; [functions] is the number of function
    objects created before the call. *)
Definition createSimpleARGame (updateGameVisualization : GameEngine.Event -> option string)
    (env : Env) (functions : nat)
    : Completion (gmap string Property) * ARGameInterface.World
      * list ARGameInterface.Effect :=
  (ARGameInterface.constructor updateGameVisualization ;;
   ARGameInterface.on_engine
     (SimpleARGameEngine.super
        (GameEngine.addPlayer env "local-player" {["name" := VStr "Local Player"]})) ;;
   ARGameInterface.on_engine
     (SimpleARGameEngine.initializeGame env (SimpleARGameEngine.mkConfig (Some 15))) ;;
   w <- this ;;
   ret (<["ar_interface" := AnInterface (ARGameInterface.interface w)]>
          {["engine" := AnEngine (ARGameInterface.engine w)]}))
    (ARGameInterface.mkWorld
       (ARGameInterface.mkInterface "simple-ar" true false false false false false None)
       SimpleARGameEngine.constructor functions).

(** What [createGameInstance] sees of the object a factory returned: its
    properties [engine] and [interface], each absent or an object.  How
    the registry will observe such an object is left open. *)
Definition as_produced
    (see_engine : Property -> GameRegistry.EngineObj)
    (see_interface : Property -> GameRegistry.InterfaceObj)
    (gameInstance : gmap string Property) : GameRegistry.Produced :=
  GameRegistry.mkProduced
    (see_engine <$> gameInstance !! "engine")
    (see_interface <$> gameInstance !! "interface").

(** What awaiting the factory of the [simple-ar] descriptor yields, given
    the outcome of [createSimpleARGame]: the wrapper catches an error and
    returns [null]. *)
Definition loaded
    (see_engine : Property -> GameRegistry.EngineObj)
    (see_interface : Property -> GameRegistry.InterfaceObj)
    (c : Completion (gmap string Property)) : option GameRegistry.Produced :=
  match c with
  | Normal gameInstance => Some (as_produced see_engine see_interface gameInstance)
  | Throw _ => None
  end.

End SimpleARGame.

(** ** Sample objects *)

Module Samples.

Definition env0 : Env := mkEnv 1700000000000 "k3j9x2q1z" 255.
Definition env1 : Env := mkEnv 1700000000500 "p0o9i8u7y" 65280.

(** Two subscribers of the abstract engine: the first throws on every
    event, the second returns. *)
Definition faulty : GameEngine.Observer :=
  GameEngine.mkObserver 0 (fun _ => Some "boom").
Definition listener : GameEngine.Observer :=
  GameEngine.mkObserver 1 (fun _ => None).

Definition engine_two : GameEngine.GameEngine :=
  GameEngine.set_observers [faulty; listener] (GameEngine.constructor "demo").
Definition engine_one : GameEngine.GameEngine :=
  GameEngine.set_observers [listener] (GameEngine.constructor "demo").

(** An engine with [alice] in its roster, in each variant. *)
Definition engine_alice : GameEngine.GameEngine :=
  state_after (GameEngine.addPlayer env0 "alice" ∅) (GameEngine.constructor "demo").
Definition engine1_alice : GameEngine1.GameEngine :=
  state_after (GameEngine1.addPlayer env0 "alice" ∅) (GameEngine1.constructor "demo").

(** A game of at most two objects, and two placements. *)
Definition two_objects : SimpleARGameEngine.Config :=
  SimpleARGameEngine.mkConfig (Some 2).
Definition negative_capacity : SimpleARGameEngine.Config :=
  SimpleARGameEngine.mkConfig (Some (-1)).
Definition place (env : Env) : SimpleARGameEngine.Action :=
  SimpleARGameEngine.mkAction env "local-player" "placeObject"
    (Some (SimpleARGameEngine.mkData (Some (1, 0, -2)) (Some "sphere") None None)).
Definition playing_engine : SimpleARGameEngine.SimpleARGameEngine :=
  SimpleARGameEngine.after env1 (SimpleARGameEngine.ProcessAction "local-player" "placeObject"
                                   (SimpleARGameEngine.a_data (place env1)))
    (SimpleARGameEngine.after env0 (SimpleARGameEngine.InitializeGame two_objects)
       SimpleARGameEngine.constructor).

(** Registry collaborators. *)
Definition fresh_pair : GameRegistry.Produced :=
  GameRegistry.mkProduced (Some (GameRegistry.mkEngineObj 3 (Some None)))
    (Some (GameRegistry.mkInterfaceObj 4 false (Normal true) None (Some None))).

Definition config_first : GameRegistry.GameConfig :=
  GameRegistry.mkConfig (Some "a") (Some "First") None (Some true) None None None None
    (Some (GameRegistry.Resolves (Some fresh_pair))).
Definition config_second : GameRegistry.GameConfig :=
  GameRegistry.mkConfig (Some "a") (Some "Second") None (Some false) None None None None
    None.

Definition empty_registry : GameRegistry.GameRegistry :=
  GameRegistry.mkRegistry ∅ None None.
Definition registry_first : GameRegistry.GameRegistry :=
  state_after (GameRegistry.registerGame env0 config_first) empty_registry.
Definition game_first : GameRegistry.Game :=
  GameRegistry.new_game env0 "a" "First" config_first.
(** A playable descriptor whose interface throws from [cleanup]. *)
Definition brittle_pair : GameRegistry.Produced :=
  GameRegistry.mkProduced (Some (GameRegistry.mkEngineObj 5 (Some None)))
    (Some (GameRegistry.mkInterfaceObj 6 false (Normal true) None
             (Some (Some "dispose failed")))).
Definition config_brittle : GameRegistry.GameConfig :=
  GameRegistry.mkConfig (Some "b") (Some "Brittle") None (Some true) None None None
    None (Some (GameRegistry.Resolves (Some brittle_pair))).

(** Games [a] and [b] registered, an instance of [b] active. *)
Definition registry_brittle : GameRegistry.GameRegistry :=
  state_after (GameRegistry.createGameInstance env0 (Some "b"))
    (state_after (GameRegistry.registerGame env0 config_brittle) registry_first).

Definition old_instance : GameRegistry.ActiveGame :=
  GameRegistry.mkActive "a" game_first (GameRegistry.mkEngineObj 3 (Some None))
    (GameRegistry.mkInterfaceObj 4 false (Normal true) None (Some None))
    1700000000000.

(** The registry as its constructor leaves it. *)
Definition initial_registry : GameRegistry.GameRegistry :=
  state_after (GameRegistry.initializeGames env0 None) empty_registry.

(** *** Further sample objects *)

(** The registry of the constructor with ["uno-ar"] selected. *)
Definition registry_selected : GameRegistry.GameRegistry :=
  GameRegistry.after env0 (GameRegistry.SelectGame "uno-ar") initial_registry.

(** A registry whose [simple-ar] factory yields [fresh_pair], with an
    instance of it created. *)
Definition registry_running : GameRegistry.GameRegistry :=
  GameRegistry.after env1 (GameRegistry.CreateGameInstance (Some "simple-ar"))
    (state_after (GameRegistry.initializeGames env0 (Some fresh_pair))
       (GameRegistry.mkRegistry ∅ None None)).

(** A registration without a name. *)
Definition config_nameless : GameRegistry.GameConfig :=
  GameRegistry.mkConfig (Some "x") None None (Some true) None None None None None.

(** Player data that carries an [id] of its own. *)
Definition data_bob : gmap string Val := {["id" := VStr "bob"]}.

(** [alice], then [bob]. *)
Definition engine_pair : GameEngine.GameEngine :=
  state_after (GameEngine.addPlayer env1 "bob" ∅) engine_alice.

(** A game of at most two objects, just initialised. *)
Definition empty_scene : SimpleARGameEngine.SimpleARGameEngine :=
  SimpleARGameEngine.after env0 (SimpleARGameEngine.InitializeGame two_objects)
    SimpleARGameEngine.constructor.

(** The data of a [removeObject] action for the object placed at [env1]. *)
Definition remove_placed : SimpleARGameEngine.ActionData :=
  SimpleARGameEngine.mkData None None None (Some (SimpleARGameEngine.object_id env1)).

(** A callback that returns on every event. *)
Definition quiet : GameEngine.Event -> option string := fun _ => None.

(** No interface yet: an engine nobody subscribed to, no function created. *)
Definition world0 : ARGameInterface.World :=
  ARGameInterface.mkWorld
    (ARGameInterface.mkInterface "simple-ar" true false false false false false None)
    SimpleARGameEngine.constructor 0.


End Samples.

(** * Properties *)

(** ** Running computations *)

Section MonadLemmas.
Context {E S : Type}.

Lemma bind_normal {A B} (m : Js E S A) (k : A -> Js E S B) s a s1 t1 :
  m s = (Normal a, s1, t1) ->
  bind m k s = (let '(r, s2, t2) := k a s1 in (r, s2, t1 ++ t2)).
Proof. intros H. unfold bind. rewrite H. reflexivity. Qed.

Lemma bind_throw {A B} (m : Js E S A) (k : A -> Js E S B) s msg s1 t1 :
  m s = (Throw msg, s1, t1) -> bind m k s = (Throw msg, s1, t1).
Proof. intros H. unfold bind. rewrite H. reflexivity. Qed.

Lemma bind_normal_eq {A B} (m : Js E S A) (k : A -> Js E S B)
    s a s1 t1 r s2 t2 :
  m s = (Normal a, s1, t1) -> k a s1 = (r, s2, t2) ->
  bind m k s = (r, s2, t1 ++ t2).
Proof. intros H1 H2. rewrite (bind_normal _ _ _ _ _ _ H1), H2. reflexivity. Qed.

Lemma bind_seq {A B} (m : Js E S A) (k : A -> Js E S B)
    s a s1 t1 r s2 t2 t :
  m s = (Normal a, s1, t1) -> k a s1 = (r, s2, t2) -> t = t1 ++ t2 ->
  bind m k s = (r, s2, t).
Proof. intros H1 H2 ->. apply (bind_normal_eq _ _ _ _ _ _ _ _ _ H1 H2). Qed.

Lemma bind_this {A} (k : S -> Js E S A) s : bind this k s = k s s.
Proof. unfold bind, this. destruct (k s s) as [[? ?] ?]. reflexivity. Qed.

Lemma lift_eq {T A} (proj : T -> S) (upd : S -> T -> T) (m : Js E S A)
    (t : T) r s tr :
  m (proj t) = (r, s, tr) -> lift proj upd m t = (r, upd s t, tr).
Proof. intros H. unfold lift. rewrite H. reflexivity. Qed.

End MonadLemmas.

(** One statement of a method body: run it, then go on with the rest. *)
Ltac js_step := eapply bind_seq; [reflexivity | | reflexivity].
Ltac js_step_with lem :=
  eapply bind_seq; [rewrite lem; reflexivity | | reflexivity].

(** ** Searching an array *)

Section Search.
Context {A : Type} (f : A -> bool).

Lemma find_absent (xs : list A) : existsb f xs = false -> find f xs = None.
Proof.
  induction xs as [|x xs IH]; cbn; [reflexivity|].
  destruct (f x); cbn; [discriminate | exact IH].
Qed.

Lemma find_present (xs : list A) :
  existsb f xs = true -> exists x, find f xs = Some x.
Proof.
  induction xs as [|x xs IH]; cbn; [discriminate|].
  destruct (f x); cbn; eauto.
Qed.

Lemma findIndex_absent (xs : list A) :
  existsb f xs = false -> GameEngine.findIndex f xs = None.
Proof.
  induction xs as [|x xs IH]; cbn; [reflexivity|].
  destruct (f x); cbn; [discriminate|]. intros H. rewrite (IH H). reflexivity.
Qed.

Lemma findIndex_present (xs : list A) :
  existsb f xs = true ->
  exists i x, GameEngine.findIndex f xs = Some i /\ xs !! i = Some x.
Proof.
  induction xs as [|x xs IH]; cbn; [discriminate|].
  destruct (f x); cbn.
  - intros _. exists O, x. split; reflexivity.
  - intros H. destruct (IH H) as (i & y & Hi & Hy).
    exists (S i), y. rewrite Hi. split; [reflexivity | exact Hy].
Qed.

Lemma findIndex_length (xs : list A) i :
  GameEngine.findIndex f xs = Some i -> (i < length xs)%nat.
Proof.
  revert i. induction xs as [|x xs IH]; cbn; [discriminate|].
  destruct (f x); intros i.
  - intros [= <-]. lia.
  - destruct (GameEngine.findIndex f xs) as [j|]; cbn; [|discriminate].
    intros [= <-]. specialize (IH j eq_refl). lia.
Qed.

End Search.

(** ** The event bus *)

Section EventBus.
Import GameEngine.

Lemma deliver_one ev o (e : GameEngine) :
  try_catch (call o ev) (fun msg => emit (ConsoleError msg)) e
  = (Normal tt, e, delivery ev o).
Proof.
  unfold try_catch, call, delivery, bind, emit, ret, throw.
  destruct (obs_call o ev); reflexivity.
Qed.

Lemma forEach_delivers (ev : Event) (os : list Observer) (e : GameEngine) :
  forEach os (fun observer =>
    try_catch (call observer ev) (fun msg => emit (ConsoleError msg))) e
  = (Normal tt, e, concat (map (delivery ev) os)).
Proof.
  induction os as [|o os IH]; [reflexivity|].
  cbn [forEach map concat].
  apply bind_normal_eq with (a := tt) (s1 := e); [apply deliver_one | exact IH].
Qed.

Lemma notifyObservers_trace env eventType data e :
  notifyObservers env eventType data e
  = (Normal tt, e,
     Notifying (length (observers e)) eventType ::
     concat (map (delivery (mkEvent (gameId e) eventType (now env) (gameState e) data))
                 (observers e))).
Proof.
  unfold notifyObservers. js_step. js_step. apply forEach_delivers.
Qed.

Lemma invocations_deliveries ev os :
  invocations (concat (map (delivery ev) os)) = map (fun o => (obs_ref o, ev)) os.
Proof.
  induction os as [|o os IH]; [reflexivity|].
  cbn [map concat]. unfold delivery at 1.
  destruct (obs_call o ev); cbn; unfold invocations in IH; rewrite IH; reflexivity.
Qed.

Lemma published_deliveries ev os :
  published (concat (map (delivery ev) os)) = [].
Proof.
  induction os as [|o os IH]; [reflexivity|].
  cbn [map concat]. unfold delivery at 1.
  destruct (obs_call o ev); cbn; exact IH.
Qed.

Lemma setState_trace env newState e :
  setState env newState e
  = (Normal tt, set_gameState newState e,
     Notifying (length (observers e)) "stateChanged" ::
     concat (map (delivery (mkEvent (gameId e) "stateChanged" (now env) newState
                              (StateChange (gameState e) newState)))
                 (observers e))).
Proof.
  unfold setState. js_step. js_step. apply notifyObservers_trace.
Qed.

Lemma cleanup_trace env e :
  cleanup env e
  = (Normal tt, mkEngine (gameId e) "cleanup" [] [] None ∅,
     [Notifying 0 "stateChanged"]).
Proof.
  unfold cleanup. do 4 js_step. apply setState_trace.
Qed.

End EventBus.

Section Roster.
Import GameEngine.

Lemma published_app (t1 t2 : list Effect) :
  published (t1 ++ t2) = published t1 ++ published t2.
Proof. unfold published. apply omap_app. Qed.

Lemma published_notify n eventType ev os :
  published (Notifying n eventType :: concat (map (delivery ev) os)) = [eventType].
Proof.
  change (eventType :: published (concat (map (delivery ev) os)) = [eventType]).
  rewrite published_deliveries. reflexivity.
Qed.

Lemma addPlayer_duplicate env playerId playerData e :
  hasPlayer playerId e = true ->
  addPlayer env playerId playerData e = (Normal false, e, []).
Proof.
  intros H. apply find_present in H as [p Hp].
  unfold addPlayer. js_step. rewrite Hp. reflexivity.
Qed.

Lemma addPlayer_fresh env playerId playerData e :
  hasPlayer playerId e = false ->
  exists t,
    addPlayer env playerId playerData e
    = (Normal true,
       set_players (players e ++ [new_player env playerId playerData]) e, t) /\
    published t = ["playerAdded"].
Proof.
  intros H. apply find_absent in H.
  eexists. split.
  - unfold addPlayer. js_step. rewrite H. js_step.
    js_step_with notifyObservers_trace. reflexivity.
  - rewrite !published_app, !published_notify. reflexivity.
Qed.

Lemma removePlayer_unknown env playerId e :
  hasPlayer playerId e = false ->
  removePlayer env playerId e = (Normal false, e, []).
Proof.
  intros H. apply findIndex_absent in H.
  unfold removePlayer. js_step. rewrite H. reflexivity.
Qed.

Lemma removePlayer_known env playerId e :
  hasPlayer playerId e = true ->
  exists i p t,
    players e !! i = Some p /\
    removePlayer env playerId e
    = (Normal true, set_players (delete i (players e)) e, t) /\
    published t = ["playerRemoved"].
Proof.
  intros H. apply findIndex_present in H as (i & p & Hi & Hp).
  exists i, p. eexists. split; [exact Hp|]. split.
  - unfold removePlayer. js_step. rewrite Hi. js_step.
    js_step_with notifyObservers_trace. reflexivity.
  - rewrite !published_app, !published_notify. reflexivity.
Qed.

End Roster.

Section EventBus1.
Import GameEngine1.

Lemma deliver_one1 ev o (e : GameEngine) :
  try_catch (call o ev) (fun msg => emit (ConsoleError msg)) e
  = (Normal tt, e, delivery ev o).
Proof.
  unfold try_catch, call, delivery, bind, emit, ret, throw.
  destruct (obs_call o ev); reflexivity.
Qed.

Lemma forEach_delivers1 (ev : Event) (os : list Observer) (e : GameEngine) :
  forEach os (fun observer =>
    try_catch (call observer ev) (fun msg => emit (ConsoleError msg))) e
  = (Normal tt, e, concat (map (delivery ev) os)).
Proof.
  induction os as [|o os IH]; [reflexivity|].
  cbn [forEach map concat].
  apply bind_normal_eq with (a := tt) (s1 := e); [apply deliver_one1 | exact IH].
Qed.

Lemma notifyObservers_trace1 event data e :
  notifyObservers event data e
  = (Normal tt, e,
     Notifying (length (observers e)) event ::
     concat (map (delivery (mkEvent event data (gameId e))) (observers e))).
Proof.
  unfold notifyObservers. js_step. js_step. apply forEach_delivers1.
Qed.

Lemma invocations_deliveries1 ev os :
  invocations (concat (map (delivery ev) os)) = map (fun o => (obs_ref o, ev)) os.
Proof.
  induction os as [|o os IH]; [reflexivity|].
  cbn [map concat]. unfold delivery at 1.
  destruct (obs_call o ev); cbn; unfold invocations in IH; rewrite IH; reflexivity.
Qed.

Lemma published_deliveries1 ev os :
  published (concat (map (delivery ev) os)) = [].
Proof.
  induction os as [|o os IH]; [reflexivity|].
  cbn [map concat]. unfold delivery at 1.
  destruct (obs_call o ev); cbn; exact IH.
Qed.

Lemma published_app1 (t1 t2 : list Effect) :
  published (t1 ++ t2) = published t1 ++ published t2.
Proof. unfold published. apply omap_app. Qed.

Lemma published_notify1 n event ev os :
  published (Notifying n event :: concat (map (delivery ev) os)) = [event].
Proof.
  change (event :: published (concat (map (delivery ev) os)) = [event]).
  rewrite published_deliveries1. reflexivity.
Qed.




Lemma addPlayer_spec1 env playerId playerData e :
  exists t,
    addPlayer env playerId playerData e
    = (Normal (new_player env playerId playerData),
       set_players (<[playerId := new_player env playerId playerData]> (players e)) e,
       t) /\
    published t = ["playerAdded"].
Proof.
  eexists. split.
  - unfold addPlayer. js_step. js_step_with notifyObservers_trace1. reflexivity.
  - rewrite !published_app1, !published_notify1. reflexivity.
Qed.

Lemma removePlayer_unknown1 playerId e :
  players e !! playerId = None -> removePlayer playerId e = (Normal false, e, []).
Proof. intros H. unfold removePlayer. js_step. rewrite H. reflexivity. Qed.

Lemma removePlayer_known1 playerId p e :
  players e !! playerId = Some p ->
  exists t,
    removePlayer playerId e
    = (Normal true, set_players (delete playerId (players e)) e, t) /\
    published t = ["playerRemoved"].
Proof.
  intros H. eexists. split.
  - unfold removePlayer. js_step. rewrite H. js_step.
    js_step_with notifyObservers_trace1. reflexivity.
  - rewrite !published_app1, !published_notify1. reflexivity.
Qed.

End EventBus1.

(** ** [SimpleARGameEngine] *)

Section SimpleAR.
Import GameEngine SimpleARGameEngine.

Lemma super_notifyObservers env eventType data (e : SimpleARGameEngine) :
  super (notifyObservers env eventType data) e
  = (Normal tt, set_base (base e) e,
     Notifying (length (observers (base e))) eventType ::
     concat (map (delivery (mkEvent (gameId (base e)) eventType (now env)
                              (gameState (base e)) data))
                 (observers (base e)))).
Proof. apply lift_eq. apply notifyObservers_trace. Qed.



Lemma initializeGame_spec env config e :
  exists t,
    initializeGame env config e
    = (Normal true,
       mkSimple (set_gameState "playing" (base e)) []
                (or_num (cfg_maxObjects config) 10), t).
Proof.
  eexists. unfold initializeGame. js_step. js_step.
  eapply bind_seq; [apply lift_eq; apply setState_trace | | reflexivity].
  reflexivity.
Qed.

Lemma cleanup_spec env e :
  cleanup env e
  = (Normal tt,
     mkSimple (mkEngine (gameId (base e)) "cleanup" [] [] None ∅)
              (placedObjects e) (maxObjects e),
     [Notifying 0 "stateChanged"]).
Proof. unfold cleanup, super, lift. rewrite cleanup_trace. reflexivity. Qed.

Lemma processAction_rejected env playerId action data e :
  validateState ["playing"] (base e) = false ->
  processAction env playerId action data e = (Normal false, e, []).
Proof.
  intros H. unfold processAction. js_step. rewrite H. reflexivity.
Qed.


Lemma handlePlaceObject_undefined env playerId e :
  Z.of_nat (length (placedObjects e)) < maxObjects e ->
  handlePlaceObject env playerId None e
  = (Throw "TypeError: Cannot read properties of undefined", e, []).
Proof.
  intros H. unfold handlePlaceObject. js_step.
  destruct (Z.geb_spec (Z.of_nat (length (placedObjects e))) (maxObjects e)) as [Hge|_];
    [lia | reflexivity].
Qed.











End SimpleAR.

(** ** [GameRegistry] *)

Section Registry.
Import GameRegistry.

Lemma try_catch_normal {E S A} (m : Js E S A) h s a s1 t1 :
  m s = (Normal a, s1, t1) -> try_catch m h s = (Normal a, s1, t1).
Proof. intros H. unfold try_catch. rewrite H. reflexivity. Qed.

Lemma try_catch_caught {E S A} (m : Js E S A) h s msg s1 t1 r s2 t2 t :
  m s = (Throw msg, s1, t1) -> h msg s1 = (r, s2, t2) -> t = t1 ++ t2 ->
  try_catch m h s = (r, s2, t).
Proof. intros H1 H2 ->. unfold try_catch. rewrite H1, H2. reflexivity. Qed.

Lemma truthy_str_some s : s <> "" -> truthy_str (Some s) = true.
Proof.
  intros H. cbn. destruct (String.eqb_spec s ""); [contradiction | reflexivity].
Qed.

Lemma truthy_str_inv o : truthy_str o = true -> exists s, o = Some s /\ s <> "".
Proof.
  destruct o as [s|]; [|discriminate]. cbn.
  destruct (String.eqb_spec s ""); [discriminate|]. eauto.
Qed.

Lemma registerGame_accepts env gameConfig r id name :
  c_id gameConfig = Some id -> c_name gameConfig = Some name ->
  id <> "" -> name <> "" ->
  registerGame env gameConfig r
  = (Normal true,
     set_games (<[id := new_game env id name gameConfig]> (games r)) r, []).
Proof.
  intros Hid Hname Hi Hn. unfold registerGame.
  rewrite Hid, Hname, !truthy_str_some by assumption. reflexivity.
Qed.

Lemma registerGame_throws env gameConfig r :
  truthy_str (c_id gameConfig) = false \/ truthy_str (c_name gameConfig) = false ->
  registerGame env gameConfig r
  = (Throw "Game registration requires id and name", r, []).
Proof.
  intros H. unfold registerGame.
  destruct H as [-> | ->]; [|rewrite orb_true_r]; reflexivity.
Qed.

Lemma registerGame_keys env gameConfig r :
  keys_truthy r -> keys_truthy (state_after (registerGame env gameConfig) r).
Proof.
  intros H. unfold state_after.
  destruct (truthy_str (c_id gameConfig)) eqn:Hid;
    [|rewrite registerGame_throws by (left; exact Hid); exact H].
  destruct (truthy_str (c_name gameConfig)) eqn:Hname;
    [|rewrite registerGame_throws by (right; exact Hname); exact H].
  apply truthy_str_inv in Hid as (id & Hid & Hi).
  apply truthy_str_inv in Hname as (name & Hname & Hn).
  rewrite (registerGame_accepts env gameConfig r id name) by assumption.
  intros j g. cbn. rewrite lookup_insert. case_decide as Hj.
  - intros _. congruence.
  - apply H.
Qed.

Lemma selectGame_known gameId game r :
  games r !! gameId = Some game ->
  selectGame gameId r
  = (Normal true, set_selectedGameId (Some gameId) r,
     [Dispatch "gameSelected" (Selected gameId game (selectedGameId r))]).
Proof. intros H. unfold selectGame. js_step. rewrite H. reflexivity. Qed.

Lemma selectGame_unknown gameId r :
  games r !! gameId = None -> selectGame gameId r = (Normal false, r, []).
Proof. intros H. unfold selectGame. js_step. rewrite H. reflexivity. Qed.

Lemma cleanupActiveGame_idle r :
  activeGame r = None -> cleanupActiveGame r = (Normal tt, r, []).
Proof. intros H. unfold cleanupActiveGame. js_step. rewrite H. reflexivity. Qed.


(** Whatever the collaborators do, [cleanupActiveGame] returns; it either
    completes the teardown or leaves the registry as it was and
    dispatches nothing. *)
Lemma cleanupActiveGame_cases r :
  exists t,
    (cleanupActiveGame r = (Normal tt, r, t) /\ dispatched t = []) \/
    (exists active,
       activeGame r = Some active /\
       cleanupActiveGame r = (Normal tt, set_activeGame None r, t) /\
       t = teardown_calls active ++
           [Dispatch "gameInstanceCleaned" (InstanceCleaned (ag_gameId active))]).
Proof.
  destruct (activeGame r) as [active|] eqn:Hactive.
  2:{ exists []. left. split; [apply cleanupActiveGame_idle; exact Hactive | reflexivity]. }
  assert (cleanupActiveGame r
          = try_catch
              ((if if_isActive (ag_interface active)
                then invoke (EndSessionCalled (if_ref (ag_interface active)))
                            (if_endSession (ag_interface active))
                else ret tt) ;;
               match if_cleanup (ag_interface active) with
               | Some throws =>
                   invoke (InterfaceCleanupCalled (if_ref (ag_interface active))) throws
               | None => ret tt
               end ;;
               match eng_cleanup (ag_engine active) with
               | Some throws =>
                   invoke (EngineCleanupCalled (eng_ref (ag_engine active))) throws
               | None => ret tt
               end ;;
               modify (set_activeGame None) ;;
               emit (Dispatch "gameInstanceCleaned" (InstanceCleaned (ag_gameId active))))
              (fun msg => emit (ConsoleError msg)) r) as ->.
  { unfold cleanupActiveGame. rewrite bind_this, Hactive. reflexivity. }
  destruct active as [gid g [eref ecl] [iref iact iinit iend icl]].
  unfold teardown_calls. cbn.
  destruct iact; [destruct iend as [msg|]|];
    (destruct icl as [[msg1|]|]); (destruct ecl as [[msg2|]|]);
    eexists;
    first [ left; split; reflexivity
          | right; eexists; split; [reflexivity|]; split; reflexivity ].
Qed.



(** The guards of [createGameInstance] passed: the body of its [try]. *)
Lemma createGameInstance_resolved env gameId r targetGameId game factory :
  or_selected gameId (selectedGameId r) = Some targetGameId ->
  targetGameId <> "" ->
  games r !! targetGameId = Some game ->
  isPlayable game = true ->
  createGame game = Some factory ->
  createGameInstance env gameId r
  = try_catch
      ((match activeGame r with
        | Some _ => cleanupActiveGame
        | None => ret tt
        end) ;;
       gameInstance <- await_factory targetGameId factory ;;
       match gameInstance with
       | Some (mkProduced (Some engine) (Some interface)) =>
           let active := mkActive targetGameId game engine interface (now env) in
           modify (set_activeGame (Some active)) ;;
           emit (Dispatch "gameInstanceCreated"
                   (InstanceCreated targetGameId game active)) ;;
           ret (Some active)
       | _ => throw "Invalid game instance created - missing engine or interface"
       end)
      (fun msg => emit (ConsoleError msg) ;; ret None) r.
Proof.
  intros Htarget Hne Hgame Hplay Hfactory.
  unfold createGameInstance. rewrite bind_this. cbn zeta.
  rewrite Htarget, (truthy_str_some _ Hne), Hgame, Hplay, Hfactory. reflexivity.
Qed.

Lemma createGameInstance_prelude r :
  exists t,
    (match activeGame r with
     | Some _ => cleanupActiveGame
     | None => ret tt
     end) r = (Normal tt, state_after cleanupActiveGame r, t) /\
    emitted cleanupActiveGame r = t.
Proof.
  unfold state_after, emitted.
  destruct (activeGame r) as [active|] eqn:Hactive.
  - destruct (cleanupActiveGame_cases r) as (t & [[H _] | (a & _ & H & _)]);
      rewrite H; eexists; split; reflexivity.
  - rewrite (cleanupActiveGame_idle r Hactive). eexists; split; reflexivity.
Qed.

Lemma createGameInstance_fails env gameId r targetGameId game factory :
  or_selected gameId (selectedGameId r) = Some targetGameId ->
  targetGameId <> "" ->
  games r !! targetGameId = Some game ->
  isPlayable game = true ->
  createGame game = Some factory ->
  factory_fails factory ->
  exists msg,
    createGameInstance env gameId r
    = (Normal None, state_after cleanupActiveGame r,
       emitted cleanupActiveGame r ++ [FactoryCalled targetGameId; ConsoleError msg]).
Proof.
  intros Htarget Hne Hgame Hplay Hfactory Hfails.
  rewrite (createGameInstance_resolved env gameId r targetGameId game factory)
    by assumption.
  destruct (createGameInstance_prelude r) as (t & Hpre & <-).
  destruct factory as [msg | [[[engine|] [interface|]]|]]; try destruct Hfails;
    eexists;
    (eapply try_catch_caught;
     [ eapply bind_seq; [exact Hpre | | reflexivity]; reflexivity
     | reflexivity
     | rewrite <- app_assoc; reflexivity ]).
Qed.


End Registry.

(** ** Properties kept by every method *)

Section Preservation.
Context {E S : Type} (P : S -> Prop).

Lemma preserves_ret {A} (a : A) : preserves (E:=E) P (ret a).
Proof. intros s H. exact H. Qed.

Lemma preserves_throw {A} msg : preserves (E:=E) (A:=A) P (throw msg).
Proof. intros s H. exact H. Qed.

Lemma preserves_this : preserves (E:=E) P this.
Proof. intros s H. exact H. Qed.

Lemma preserves_emit (e : E) : preserves P (emit e).
Proof. intros s H. exact H. Qed.

Lemma preserves_complete {A} (c : Completion A) : preserves (E:=E) P (complete c).
Proof. intros s H. exact H. Qed.

Lemma preserves_modify (f : S -> S) :
  (forall s, P s -> P (f s)) -> preserves (E:=E) P (modify f).
Proof. intros Hf s H. apply Hf, H. Qed.

Lemma preserves_bind {A B} (m : Js E S A) (k : A -> Js E S B) :
  preserves P m -> (forall a, preserves P (k a)) -> preserves P (bind m k).
Proof.
  intros Hm Hk s H. specialize (Hm s H). unfold state_after, bind in *.
  destruct (m s) as [[[a|msg] s1] t1]; cbn in *; [|exact Hm].
  specialize (Hk a s1 Hm). unfold state_after in Hk.
  destruct (k a s1) as [[r s2] t2]. exact Hk.
Qed.

Lemma preserves_try_catch {A} (m : Js E S A) (h : string -> Js E S A) :
  preserves P m -> (forall msg, preserves P (h msg)) -> preserves P (try_catch m h).
Proof.
  intros Hm Hh s H. specialize (Hm s H). unfold state_after, try_catch in *.
  destruct (m s) as [[[a|msg] s1] t1]; cbn in *; [exact Hm|].
  specialize (Hh msg s1 Hm). unfold state_after in Hh.
  destruct (h msg s1) as [[r s2] t2]. exact Hh.
Qed.

End Preservation.

Ltac preserve :=
  repeat first
    [ apply preserves_ret | apply preserves_throw | apply preserves_this
    | apply preserves_emit | apply preserves_complete
    | apply preserves_modify; intros ? ?; assumption
    | apply preserves_bind; [|intros ?]
    | apply preserves_try_catch; [|intros ?]
    | match goal with
      | |- preserves _ (match ?x with _ => _ end) => destruct x
      end ].

Section RegistryInvariant.
Import GameRegistry.

Lemma registerGame_preserves env gameConfig :
  preserves keys_truthy (registerGame env gameConfig).
Proof. intros r H. apply registerGame_keys, H. Qed.

Lemma cleanupActiveGame_preserves : preserves keys_truthy cleanupActiveGame.
Proof. unfold cleanupActiveGame, invoke. preserve. Qed.

Lemma after_keys env c r : keys_truthy r -> keys_truthy (after env c r).
Proof.
  revert r. destruct c; cbn [after].
  - apply registerGame_preserves.
  - change (preserves keys_truthy (selectGame gameId)).
    unfold selectGame. preserve.
  - change (preserves keys_truthy (createGameInstance env gameId)).
    unfold createGameInstance, await_factory. preserve.
    all: apply cleanupActiveGame_preserves.
  - change (preserves keys_truthy startActiveGameSession).
    unfold startActiveGameSession. preserve.
  - change (preserves keys_truthy endActiveGameSession).
    unfold endActiveGameSession, invoke. preserve.
  - apply cleanupActiveGame_preserves.
Qed.

Lemma reachable_keys r : reachable r -> keys_truthy r.
Proof.
  induction 1 as [env simpleAR | env c r _ IH]; [|apply after_keys, IH].
  assert (preserves keys_truthy (initializeGames env simpleAR)) as Hinit.
  { unfold initializeGames.
    do 3 (apply preserves_bind; [apply registerGame_preserves | intros _]).
    apply preserves_ret. }
  apply Hinit. intros i g. cbn. rewrite lookup_empty. discriminate.
Qed.

End RegistryInvariant.

(** * The claims *)

Import Samples.

(** ** C1: duplicate registration *)

(** C1, as the code has it.  [registerGame] has no duplicate check: a call
    whose descriptor carries a non-empty [id] and [name] returns [true]
    whether or not the [id] is already in the catalog, dispatches nothing,
    and leaves under that [id] the descriptor built from this call (the
    last registration wins); every other entry is unchanged. *)
Theorem C1_register_overwrites env gameConfig (r : GameRegistry.GameRegistry) id name :
  GameRegistry.c_id gameConfig = Some id ->
  GameRegistry.c_name gameConfig = Some name ->
  id <> "" -> name <> "" ->
  exists r',
    GameRegistry.registerGame env gameConfig r = (Normal true, r', []) /\
    GameRegistry.games r' !! id = Some (GameRegistry.new_game env id name gameConfig) /\
    (forall j, j <> id -> GameRegistry.games r' !! j = GameRegistry.games r !! j) /\
    GameRegistry.selectedGameId r' = GameRegistry.selectedGameId r /\
    GameRegistry.activeGame r' = GameRegistry.activeGame r.
Proof.
  intros Hid Hname Hi Hn. eexists. split.
  - apply (registerGame_accepts env gameConfig r id name); assumption.
  - cbn. split; [apply lookup_insert_eq|].
    split; [|split; reflexivity].
    intros j Hj. apply lookup_insert_ne. congruence.
Qed.

Lemma C1_register_overwrites_witness :
  GameRegistry.c_id config_second = Some "a" /\
  exists r',
    GameRegistry.registerGame env1 config_second registry_first = (Normal true, r', []) /\
    GameRegistry.games r' !! "a"
      = Some (GameRegistry.new_game env1 "a" "Second" config_second).
Proof.
  split; [reflexivity|].
  destruct (C1_register_overwrites env1 config_second registry_first "a" "Second")
    as (r' & H1 & H2 & _); [reflexivity | reflexivity | discriminate | discriminate |].
  exists r'. split; assumption.
Defined.

(** C1 fails as stated: with ["a"] already registered as "First", a second
    registration under ["a"] is accepted and replaces the descriptor. *)
Lemma C1_counterexample :
  GameRegistry.name <$> GameRegistry.games registry_first !! "a" = Some "First" /\
  (GameRegistry.registerGame env1 config_second registry_first).1.1 = Normal true /\
  GameRegistry.name <$>
    GameRegistry.games
      (state_after (GameRegistry.registerGame env1 config_second) registry_first) !! "a"
    = Some "Second".
Proof. vm_compute. repeat split. Qed.

(** ** C2: the order of [cleanup] *)



(** ** C4: observer isolation *)


(** Two subscribers, the first throwing: the second still receives the
    event, after the error of the first was logged. *)
Example two_subscribers :
  GameEngine.notifyObservers env0 "stateChanged" GameEngine.NoData engine_two
  = (Normal tt, engine_two,
     let ev := GameEngine.mkEvent "demo" "stateChanged" (now env0) "initialized"
                 GameEngine.NoData in
     [GameEngine.Notifying 2 "stateChanged";
      GameEngine.Invoked 0 ev; GameEngine.ConsoleError "boom";
      GameEngine.Invoked 1 ev]).
Proof. reflexivity. Qed.

(** ** C5: the engine after [cleanup] *)


(** ** C8: the roster *)

(** C8, as the code has it.  In the abstract engine: [addPlayer] for an id
    in the roster returns [false], changes nothing and emits nothing, and
    so does [removePlayer] for an id not in the roster; the other calls
    return [true] and publish [playerAdded], respectively [playerRemoved].
    In the first variant the same holds of [removePlayer], while
    [addPlayer] never rejects: it stores the new player under the id,
    publishes [playerAdded] and returns the player. *)
Theorem C8_roster_events :
  (forall env playerId playerData (e : GameEngine.GameEngine),
    (GameEngine.hasPlayer playerId e = true ->
     GameEngine.addPlayer env playerId playerData e = (Normal false, e, [])) /\
    (GameEngine.hasPlayer playerId e = false ->
     exists e' t,
       GameEngine.addPlayer env playerId playerData e = (Normal true, e', t) /\
       GameEngine.published t = ["playerAdded"]) /\
    (GameEngine.hasPlayer playerId e = false ->
     GameEngine.removePlayer env playerId e = (Normal false, e, [])) /\
    (GameEngine.hasPlayer playerId e = true ->
     exists e' t,
       GameEngine.removePlayer env playerId e = (Normal true, e', t) /\
       GameEngine.published t = ["playerRemoved"])) /\
  (forall env playerId playerData (e : GameEngine1.GameEngine),
    (GameEngine1.players e !! playerId = None ->
     GameEngine1.removePlayer playerId e = (Normal false, e, [])) /\
    (is_Some (GameEngine1.players e !! playerId) ->
     exists e' t,
       GameEngine1.removePlayer playerId e = (Normal true, e', t) /\
       GameEngine1.published t = ["playerRemoved"]) /\
    (exists player e' t,
       GameEngine1.addPlayer env playerId playerData e = (Normal player, e', t) /\
       GameEngine1.players e' !! playerId = Some player /\
       GameEngine1.published t = ["playerAdded"])).
Proof.
  split.
  - intros env playerId playerData e. repeat split.
    + apply addPlayer_duplicate.
    + intros H. destruct (addPlayer_fresh env playerId playerData e H) as (t & H1 & H2).
      eauto.
    + apply removePlayer_unknown.
    + intros H. destruct (removePlayer_known env playerId e H) as (i & p & t & _ & H1 & H2).
      eauto.
  - intros env playerId playerData e. repeat split.
    + apply removePlayer_unknown1.
    + intros [p Hp]. destruct (removePlayer_known1 playerId p e Hp) as (t & H1 & H2).
      eauto.
    + destruct (addPlayer_spec1 env playerId playerData e) as (t & H1 & H2).
      do 3 eexists. split; [exact H1|]. split; [apply lookup_insert_eq | exact H2].
Qed.

Lemma C8_roster_events_witness :
  GameEngine.hasPlayer "alice" engine_alice = true /\
  GameEngine.addPlayer env1 "alice" ∅ engine_alice = (Normal false, engine_alice, []).
Proof.
  split; [reflexivity|].
  apply (proj1 (proj1 C8_roster_events env1 "alice" ∅ engine_alice)). reflexivity.
Defined.

(** C8 fails as stated on the first variant: with [alice] in the roster,
    [addPlayer "alice"] returns the player object, not [false], and
    publishes [playerAdded]. *)
Lemma C8_counterexample :
  is_Some (GameEngine1.players engine1_alice !! "alice") /\
  (GameEngine1.addPlayer env1 "alice" ∅ engine1_alice).1.1
    = Normal (GameEngine1.new_player env1 "alice" ∅) /\
  emitted (GameEngine1.addPlayer env1 "alice" ∅) engine1_alice
    = [GameEngine1.Notifying 0 "playerAdded"].
Proof. split; [eexists; vm_compute; reflexivity | split; reflexivity]. Qed.

(** ** C3: replacing the active instance *)

Section Replace.
Import GameRegistry.


End Replace.



(** When a teardown call throws, [cleanupActiveGame] catches the error
    before it clears the slot: no [gameInstanceCleaned] is dispatched, the
    factory still runs and the new instance replaces the old one. *)
Example teardown_throws :
  GameRegistry.ag_gameId <$> GameRegistry.activeGame registry_brittle = Some "b" /\
  emitted (GameRegistry.createGameInstance env1 (Some "a")) registry_brittle
  = [GameRegistry.InterfaceCleanupCalled 6;
     GameRegistry.ConsoleError "dispose failed";
     GameRegistry.FactoryCalled "a";
     GameRegistry.Dispatch "gameInstanceCreated"
       (GameRegistry.InstanceCreated "a" game_first
          (GameRegistry.mkActive "a" game_first (GameRegistry.mkEngineObj 3 (Some None))
             (GameRegistry.mkInterfaceObj 4 false (Normal true) None (Some None))
             (now env1)))].
Proof. split; reflexivity. Qed.

(** ** C6: selection *)

(** C6.  In a registry built by the constructor and any calls of its
    methods: [selectGame] of a registered id returns [true] and
    [getSelectedGame] then returns the descriptor registered under it;
    [selectGame] of an id not in the catalog returns [false], dispatches
    nothing and leaves the registry, hence the selection, as it was. *)
Theorem C6_select_then_get (r : GameRegistry.GameRegistry) gameId :
  GameRegistry.reachable r ->
  (forall game,
     GameRegistry.games r !! gameId = Some game ->
     exists r' t,
       GameRegistry.selectGame gameId r = (Normal true, r', t) /\
       GameRegistry.getSelectedGame r' = Some game) /\
  (GameRegistry.games r !! gameId = None ->
   GameRegistry.selectGame gameId r = (Normal false, r, [])).
Proof.
  intros Hreach. split.
  - intros game Hgame. do 2 eexists. split; [apply selectGame_known, Hgame|].
    pose proof (reachable_keys r Hreach gameId game Hgame) as Hne.
    unfold GameRegistry.getSelectedGame. cbn [GameRegistry.selectedGameId
      GameRegistry.set_selectedGameId GameRegistry.games].
    rewrite (truthy_str_some gameId Hne). exact Hgame.
  - apply selectGame_unknown.
Qed.

Lemma C6_select_then_get_witness :
  GameRegistry.reachable initial_registry /\
  exists game r' t,
    GameRegistry.games initial_registry !! "uno-ar" = Some game /\
    GameRegistry.selectGame "uno-ar" initial_registry = (Normal true, r', t) /\
    GameRegistry.getSelectedGame r' = Some game.
Proof.
  assert (GameRegistry.reachable initial_registry) as Hreach
    by exact (GameRegistry.reachable_new env0 None).
  split; [exact Hreach|].
  destruct (GameRegistry.games initial_registry !! "uno-ar") as [game|] eqn:Hgame;
    [|vm_compute in Hgame; discriminate].
  destruct (proj1 (C6_select_then_get initial_registry "uno-ar" Hreach) game Hgame)
    as (r' & t & H1 & H2).
  exists game, r', t. repeat split; assumption.
Defined.

(** ** C7: failed creation *)

Section FailedCreation.
Import GameRegistry.


End FailedCreation.



(** ** C9: the snapshot round trip *)

Section RoundTrip.
Import GameEngine SimpleARGameEngine.


End RoundTrip.


(** ** C10: the capacity of the scene *)

Section Capacity.
Import GameEngine SimpleARGameEngine.

Lemma initializeGame_within_capacity env config e0 :
  within_capacity (state_after (initializeGame env config) e0) <->
  0 <= or_num (cfg_maxObjects config) 10.
Proof.
  destruct (initializeGame_spec env config e0) as [t Ht].
  unfold state_after, within_capacity. rewrite Ht. cbn. reflexivity.
Qed.


End Capacity.


(** After three placements into a scene of two, two objects are placed. *)
Example third_placement_rejected :
  length (SimpleARGameEngine.placedObjects
            (SimpleARGameEngine.processActions [place env0; place env1; place env0]
               (state_after (SimpleARGameEngine.initializeGame env0 two_objects)
                  SimpleARGameEngine.constructor))) = 2%nat.
Proof. reflexivity. Qed.

(** A negative [config.maxObjects] is stored as it is: the bound does not
    hold of the empty scene, and every placement is rejected. *)
Example negative_capacity_stored :
  let e := state_after (SimpleARGameEngine.initializeGame env0 negative_capacity)
             SimpleARGameEngine.constructor in
  SimpleARGameEngine.maxObjects e = -1 /\
  SimpleARGameEngine.placedObjects e = [] /\
  SimpleARGameEngine.processAction env1 "local-player" "placeObject"
    (SimpleARGameEngine.a_data (place env1)) e = (Normal false, e, []).
Proof. repeat split. Qed.

(** * Further properties of the code *)

(** ** [GameRegistry]: registration and the guards of creation *)

Section RegistryMore.
Import GameRegistry.

(** X1.  [registerGame] throws exactly when [id] or [name] is missing or empty;
    when it throws, the registry is as before and nothing is emitted. *)
Theorem X1_register_requires_id_and_name env gameConfig (r : GameRegistry) :
  (truthy_str (c_id gameConfig) = false \/ truthy_str (c_name gameConfig) = false ->
   registerGame env gameConfig r
   = (Throw "Game registration requires id and name", r, [])) /\
  (forall msg r' t,
     registerGame env gameConfig r = (Throw msg, r', t) ->
     (truthy_str (c_id gameConfig) = false \/ truthy_str (c_name gameConfig) = false) /\
     r' = r /\ t = []).
Proof.
  split; [apply registerGame_throws|].
  intros msg r' t H.
  destruct (truthy_str (c_id gameConfig)) eqn:Hid;
    [|rewrite registerGame_throws in H by (left; exact Hid);
      injection H as _ <- <-; auto].
  destruct (truthy_str (c_name gameConfig)) eqn:Hname;
    [|rewrite registerGame_throws in H by (right; exact Hname);
      injection H as _ <- <-; auto].
  apply truthy_str_inv in Hid as (i & Hid & Hi).
  apply truthy_str_inv in Hname as (n & Hname & Hn).
  rewrite (registerGame_accepts env gameConfig r i n) in H by assumption.
  discriminate.
Qed.

Lemma createGameInstance_no_target env gameId (r : GameRegistry) :
  truthy_str (or_selected gameId (selectedGameId r)) = false ->
  createGameInstance env gameId r = (Normal None, r, []).
Proof.
  intros H. unfold createGameInstance. rewrite bind_this. cbn zeta.
  destruct (or_selected gameId (selectedGameId r)) as [t|]; [|reflexivity].
  rewrite H. reflexivity.
Qed.

Lemma createGameInstance_unknown env gameId (r : GameRegistry) target :
  or_selected gameId (selectedGameId r) = Some target ->
  games r !! target = None ->
  createGameInstance env gameId r = (Normal None, r, []).
Proof.
  intros Ht Hg. unfold createGameInstance. rewrite bind_this. cbn zeta.
  rewrite Ht. destruct (negb (truthy_str (Some target))); [reflexivity|].
  rewrite Hg. reflexivity.
Qed.

Lemma createGameInstance_unplayable env gameId (r : GameRegistry) target game :
  or_selected gameId (selectedGameId r) = Some target ->
  games r !! target = Some game ->
  isPlayable game = false \/ createGame game = None ->
  createGameInstance env gameId r = (Normal None, r, []).
Proof.
  intros Ht Hg Hp. unfold createGameInstance. rewrite bind_this. cbn zeta.
  rewrite Ht. destruct (negb (truthy_str (Some target))); [reflexivity|].
  rewrite Hg. destruct Hp as [-> | ->]; [reflexivity|].
  destruct (isPlayable game); reflexivity.
Qed.

Lemma createGameInstance_stopped env gameId (r : GameRegistry) :
  truthy_str (or_selected gameId (selectedGameId r)) = false \/
  (exists target,
     or_selected gameId (selectedGameId r) = Some target /\
     (games r !! target = None \/
      exists game,
        games r !! target = Some game /\
        (isPlayable game = false \/ createGame game = None))) ->
  createGameInstance env gameId r = (Normal None, r, []).
Proof.
  intros [H | (target & Ht & [Hg | (game & Hg & Hp)])].
  - apply createGameInstance_no_target, H.
  - apply (createGameInstance_unknown env gameId r target); assumption.
  - apply (createGameInstance_unplayable env gameId r target game); assumption.
Qed.

(** X2.  A call that one of the guards of [createGameInstance] stops (no
    target, a game that is not registered, not playable, or without a
    factory) returns [null], calls nothing, dispatches nothing and leaves
    the registry, the active instance included, as it was. *)
Theorem X2_createGameInstance_guarded env gameId (r : GameRegistry) :
  truthy_str (or_selected gameId (selectedGameId r)) = false \/
  (exists target,
     or_selected gameId (selectedGameId r) = Some target /\
     (games r !! target = None \/
      exists game,
        games r !! target = Some game /\
        (isPlayable game = false \/ createGame game = None))) ->
  createGameInstance env gameId r = (Normal None, r, []).
Proof. exact (createGameInstance_stopped env gameId r). Qed.

Lemma X2_createGameInstance_guarded_witness :
  isGamePlayable "uno-ar" initial_registry = false /\
  createGameInstance env1 (Some "uno-ar") initial_registry
  = (Normal None, initial_registry, []).
Proof.
  split; [reflexivity|].
  apply X2_createGameInstance_guarded. right. exists "uno-ar". split; [reflexivity|].
  right. eexists. split; [reflexivity|]. left. reflexivity.
Defined.

Lemma state_after_cleanup_slot (r : GameRegistry) active :
  set_activeGame (Some active) (state_after cleanupActiveGame r)
  = set_activeGame (Some active) r.
Proof.
  unfold state_after.
  destruct (cleanupActiveGame_cases r) as (t & [[H _] | (a & _ & H & _)]);
    rewrite H; reflexivity.
Qed.

Lemma createGameInstance_succeeds env gameId (r : GameRegistry)
    targetGameId game engine interface :
  or_selected gameId (selectedGameId r) = Some targetGameId ->
  targetGameId <> "" ->
  games r !! targetGameId = Some game ->
  isPlayable game = true ->
  createGame game = Some (Resolves (Some (mkProduced (Some engine) (Some interface)))) ->
  let active := mkActive targetGameId game engine interface (now env) in
  createGameInstance env gameId r
  = (Normal (Some active), set_activeGame (Some active) r,
     emitted cleanupActiveGame r ++
     [FactoryCalled targetGameId;
      Dispatch "gameInstanceCreated" (InstanceCreated targetGameId game active)]).
Proof.
  intros Htarget Hne Hgame Hplay Hfactory active.
  rewrite (createGameInstance_resolved env gameId r targetGameId game _)
    by eassumption.
  destruct (createGameInstance_prelude r) as (t & Hpre & <-).
  apply try_catch_normal.
  eapply bind_seq; [exact Hpre | | reflexivity].
  cbn -[state_after]. rewrite state_after_cleanup_slot. reflexivity.
Qed.

(** The target of a call, when the guards let it through. *)
Lemma createGameInstance_decides env gameId (r : GameRegistry) :
  createGameInstance env gameId r = (Normal None, r, []) \/
  exists target game factory,
    or_selected gameId (selectedGameId r) = Some target /\
    target <> "" /\
    games r !! target = Some game /\
    isPlayable game = true /\
    createGame game = Some factory.
Proof.
  destruct (truthy_str (or_selected gameId (selectedGameId r))) eqn:Ht;
    [|left; apply createGameInstance_no_target, Ht].
  apply truthy_str_inv in Ht as (target & Ht & Hne).
  destruct (games r !! target) as [game|] eqn:Hg;
    [|left; apply (createGameInstance_unknown env gameId r target); assumption].
  destruct (isPlayable game) eqn:Hp;
    [|left; apply (createGameInstance_unplayable env gameId r target game); auto].
  destruct (createGame game) as [factory|] eqn:Hf;
    [|left; apply (createGameInstance_unplayable env gameId r target game); auto].
  right. exists target, game, factory. auto.
Qed.

Lemma factory_fails_dec f :
  factory_fails f \/
  exists engine interface, f = Resolves (Some (mkProduced (Some engine) (Some interface))).
Proof.
  destruct f as [msg | [[[engine|] [interface|]]|]]; cbn; eauto.
Qed.


(** X4.  With no instance active, a call that passes the guards and whose
    factory yields an engine and an interface calls the factory once,
    stores the new instance with the descriptor, the two objects and the
    time of the call, dispatches [gameInstanceCreated] alone and returns
    the instance. *)
Theorem X4_createGameInstance_from_idle env gameId (r : GameRegistry)
    targetGameId game engine interface :
  activeGame r = None ->
  or_selected gameId (selectedGameId r) = Some targetGameId ->
  targetGameId <> "" ->
  games r !! targetGameId = Some game ->
  isPlayable game = true ->
  createGame game = Some (Resolves (Some (mkProduced (Some engine) (Some interface)))) ->
  let active := mkActive targetGameId game engine interface (now env) in
  createGameInstance env gameId r
  = (Normal (Some active), set_activeGame (Some active) r,
     [FactoryCalled targetGameId;
      Dispatch "gameInstanceCreated" (InstanceCreated targetGameId game active)]) /\
  getActiveGame (state_after (createGameInstance env gameId) r) = Some active.
Proof.
  intros Hidle Ht Hne Hg Hp Hf active.
  pose proof (createGameInstance_succeeds env gameId r targetGameId game engine
                interface Ht Hne Hg Hp Hf) as H. cbn zeta in H.
  unfold emitted in H. rewrite (cleanupActiveGame_idle r Hidle) in H. cbn [snd app] in H.
  split; [exact H|]. unfold state_after. rewrite H. reflexivity.
Qed.

Lemma X4_createGameInstance_from_idle_witness :
  activeGame registry_first = None /\
  getActiveGame (state_after (createGameInstance env0 (Some "a")) registry_first)
  = Some old_instance.
Proof.
  split; [reflexivity|].
  refine (proj2 (X4_createGameInstance_from_idle env0 (Some "a") registry_first "a"
                   game_first (mkEngineObj 3 (Some None))
                   (mkInterfaceObj 4 false (Normal true) None (Some None))
                   _ _ _ _ _ _));
    try reflexivity. discriminate.
Defined.

(** X5.  [isGamePlayable] is a sound test before creation: for a non-empty id
    it reports as not playable, [createGameInstance(id)] returns [null]
    and does nothing.  (An empty id falls back on the selection.) *)
Theorem X5_unplayable_not_created env gameId (r : GameRegistry) :
  gameId <> "" ->
  isGamePlayable gameId r = false ->
  createGameInstance env (Some gameId) r = (Normal None, r, []).
Proof.
  intros Hne Hplay. apply createGameInstance_stopped. right. exists gameId.
  split.
  - unfold or_selected. rewrite (truthy_str_some gameId Hne). reflexivity.
  - unfold isGamePlayable in Hplay.
    destruct (games r !! gameId) as [game|]; [|left; reflexivity].
    right. exists game. auto.
Qed.

Lemma X5_unplayable_not_created_witness :
  isGamePlayable "poker-ar" initial_registry = false /\
  createGameInstance env1 (Some "poker-ar") initial_registry
  = (Normal None, initial_registry, []).
Proof.
  split; [reflexivity|].
  apply X5_unplayable_not_created; [discriminate | reflexivity].
Defined.

(** ** [GameRegistry]: sessions *)

Lemma startActiveGameSession_cases (r : GameRegistry) :
  (activeGame r = None -> startActiveGameSession r = (Normal false, r, [])) /\
  (forall active,
     activeGame r = Some active ->
     let interface := ag_interface active in
     startActiveGameSession r =
       match if_initialize interface with
       | Normal true =>
           (Normal true, r,
            [InitializeCalled (if_ref interface);
             Dispatch "gameSessionStarted"
               (Session (ag_gameId active) (ag_game active))])
       | Normal false => (Normal false, r, [InitializeCalled (if_ref interface)])
       | Throw msg =>
           (Normal false, r, [InitializeCalled (if_ref interface); ConsoleError msg])
       end).
Proof.
  split.
  - intros H. unfold startActiveGameSession. rewrite bind_this, H. reflexivity.
  - intros active H interface.
    unfold startActiveGameSession. rewrite bind_this, H.
    fold interface. destruct (if_initialize interface) as [[|]|msg]; reflexivity.
Qed.


Lemma endActiveGameSession_cases (r : GameRegistry) :
  (activeGame r = None -> endActiveGameSession r = (Normal tt, r, [])) /\
  (forall active,
     activeGame r = Some active ->
     let interface := ag_interface active in
     endActiveGameSession r =
       match if_endSession interface with
       | None =>
           (Normal tt, r,
            [EndSessionCalled (if_ref interface);
             Dispatch "gameSessionEnded"
               (Session (ag_gameId active) (ag_game active))])
       | Some msg =>
           (Normal tt, r, [EndSessionCalled (if_ref interface); ConsoleError msg])
       end).
Proof.
  split.
  - intros H. unfold endActiveGameSession. rewrite bind_this, H. reflexivity.
  - intros active H interface.
    unfold endActiveGameSession. rewrite bind_this, H.
    fold interface. destruct (if_endSession interface) as [msg|]; reflexivity.
Qed.




(** ** [GameRegistry]: teardown *)



(** ** [GameRegistry]: what every reachable registry satisfies *)

Lemma consistent_slot_cleared (r : GameRegistry) :
  consistent r -> consistent (set_activeGame None r).
Proof.
  intros (H1 & H2 & H3 & H4).
  split; [exact H1|]. split; [exact H2|]. split; [exact H3|].
  intros active. cbn. discriminate.
Qed.

Lemma consistent_after_cleanup (r : GameRegistry) :
  consistent r -> consistent (state_after cleanupActiveGame r).
Proof.
  intros H. unfold state_after.
  destruct (cleanupActiveGame_cases r) as (t & [[Hc _] | (a & _ & Hc & _)]);
    rewrite Hc; [exact H | apply consistent_slot_cleared, H].
Qed.

Lemma consistent_after_register env gameConfig (r : GameRegistry) :
  consistent r -> consistent (state_after (registerGame env gameConfig) r).
Proof.
  intros (H1 & H2 & H3 & H4).
  split; [apply registerGame_keys, H1|].
  unfold state_after.
  destruct (truthy_str (c_id gameConfig)) eqn:Hid;
    [|rewrite registerGame_throws by (left; exact Hid); auto].
  destruct (truthy_str (c_name gameConfig)) eqn:Hname;
    [|rewrite registerGame_throws by (right; exact Hname); auto].
  apply truthy_str_inv in Hid as (i & Hid & Hi).
  apply truthy_str_inv in Hname as (n & Hname & Hn).
  rewrite (registerGame_accepts env gameConfig r i n) by assumption.
  cbn [fst snd]. split; [|split].
  - intros j g. cbn. rewrite lookup_insert. case_decide as Hj.
    + intros [= <-]. exact Hj.
    + apply H2.
  - intros j Hj. cbn in *. rewrite lookup_insert. case_decide; [eauto | apply H3, Hj].
  - intros active Ha. cbn in *. destruct (H4 active Ha) as (Hk & Hrest).
    split; [|exact Hrest]. rewrite lookup_insert. case_decide; [eauto | exact Hk].
Qed.

Lemma consistent_after_select gameId (r : GameRegistry) :
  consistent r -> consistent (state_after (selectGame gameId) r).
Proof.
  intros (H1 & H2 & H3 & H4). unfold state_after.
  destruct (games r !! gameId) as [game|] eqn:Hg.
  - rewrite (selectGame_known gameId game r Hg). cbn [fst snd].
    split; [exact H1|]. split; [exact H2|]. split; [|exact H4].
    intros j [= <-]. cbn. rewrite Hg. eauto.
  - rewrite (selectGame_unknown gameId r Hg).
    exact (conj H1 (conj H2 (conj H3 H4))).
Qed.

Lemma consistent_after_create env gameId (r : GameRegistry) :
  consistent r -> consistent (state_after (createGameInstance env gameId) r).
Proof.
  intros H. unfold state_after.
  destruct (createGameInstance_decides env gameId r)
    as [Hc | (target & game & factory & Ht & Hne & Hg & Hp & Hf)];
    [rewrite Hc; exact H|].
  destruct (factory_fails_dec factory) as [Hfails | (engine & interface & ->)].
  - destruct (createGameInstance_fails env gameId r target game factory)
      as [msg Hmsg]; try assumption.
    rewrite Hmsg. apply consistent_after_cleanup, H.
  - rewrite (createGameInstance_succeeds env gameId r target game engine interface)
      by assumption.
    destruct H as (H1 & H2 & H3 & H4). cbn [fst snd].
    split; [exact H1|]. split; [exact H2|]. split; [exact H3|].
    intros active. cbn. intros [= <-]. cbn.
    split; [rewrite Hg; eauto|]. split; [apply H2, Hg|].
    split; [exact Hp | rewrite Hf; eauto].
Qed.

Lemma state_after_start (r : GameRegistry) : state_after startActiveGameSession r = r.
Proof.
  unfold state_after. destruct (startActiveGameSession_cases r) as [H0 H1].
  destruct (activeGame r) as [active|] eqn:Ha.
  - rewrite (H1 active eq_refl). cbn zeta.
    destruct (if_initialize (ag_interface active)) as [[|]|]; reflexivity.
  - rewrite (H0 eq_refl). reflexivity.
Qed.

Lemma state_after_end (r : GameRegistry) : state_after endActiveGameSession r = r.
Proof.
  unfold state_after. destruct (endActiveGameSession_cases r) as [H0 H1].
  destruct (activeGame r) as [active|] eqn:Ha.
  - rewrite (H1 active eq_refl). cbn zeta.
    destruct (if_endSession (ag_interface active)); reflexivity.
  - rewrite (H0 eq_refl). reflexivity.
Qed.

Lemma reachable_consistent (r : GameRegistry) : reachable r -> consistent r.
Proof.
  induction 1 as [env simpleAR | env c r _ IH].
  - unfold initializeGames.
    assert (consistent (mkRegistry ∅ None None)) as H0.
    { split; [|split; [|split]]; intros ? ?; cbn; try rewrite lookup_empty;
        discriminate. }
    revert H0. generalize (mkRegistry ∅ None None). intros r0 H0.
    apply (consistent_after_register env) with (gameConfig :=
      mkConfig (Some "simple-ar") (Some "Simple AR Test")
        (Some "Place and interact with 3D objects in AR space")
        (Some true) (Some "1") (Some "Easy") (Some "5-10 min") (Some "Demo")
        (Some (Resolves simpleAR))) in H0.
    apply (consistent_after_register env) with (gameConfig :=
      mkConfig (Some "uno-ar") (Some "UNO AR")
        (Some "Classic UNO card game in augmented reality")
        (Some false) (Some "2-4") (Some "Medium") (Some "15-30 min")
        (Some "Card Game") None) in H0.
    apply (consistent_after_register env) with (gameConfig :=
      mkConfig (Some "poker-ar") (Some "Poker AR")
        (Some "Texas Hold'em poker in AR environment")
        (Some false) (Some "2-8") (Some "Hard") (Some "30-60 min")
        (Some "Card Game") None) in H0.
    exact H0.
  - destruct c; cbn [after].
    + apply consistent_after_register, IH.
    + apply consistent_after_select, IH.
    + apply consistent_after_create, IH.
    + rewrite state_after_start. exact IH.
    + rewrite state_after_end. exact IH.
    + apply consistent_after_cleanup, IH.
Qed.

(** X9.  In a registry built by the constructor and any calls of its methods,
    the selection always names a registered game: [getSelectedGame]
    returns [null] only while nothing has been selected, and otherwise the
    descriptor whose [id] is the selected one. *)
Theorem X9_selection_stays_registered (r : GameRegistry) :
  reachable r ->
  (selectedGameId r = None -> getSelectedGame r = None) /\
  (forall i, selectedGameId r = Some i ->
             exists game, getSelectedGame r = Some game /\ id game = i).
Proof.
  intros Hreach. destruct (reachable_consistent r Hreach) as (H1 & H2 & H3 & _).
  split.
  - intros H. unfold getSelectedGame. rewrite H. reflexivity.
  - intros i Hi. destruct (H3 i Hi) as [game Hg]. exists game.
    split; [|apply H2, Hg].
    unfold getSelectedGame. rewrite Hi, (truthy_str_some i (H1 i game Hg)). exact Hg.
Qed.

(** X10.  In a reachable registry the active instance, if any, was built for a
    playable descriptor with a factory, carries the [id] of that
    descriptor, and that [id] is still registered. *)
Theorem X10_active_instance_from_catalog (r : GameRegistry) active :
  reachable r ->
  activeGame r = Some active ->
  is_Some (games r !! ag_gameId active) /\
  id (ag_game active) = ag_gameId active /\
  isPlayable (ag_game active) = true /\
  is_Some (createGame (ag_game active)).
Proof.
  intros Hreach Ha. destruct (reachable_consistent r Hreach) as (_ & _ & _ & H4).
  apply H4, Ha.
Qed.

End RegistryMore.


(** ** The event bus: subscribing and unsubscribing *)

Section Subscriptions.
Import GameEngine.

Lemma has_ref_spec r os : has_ref r os = true <-> r ∈ map obs_ref os.
Proof.
  unfold has_ref. induction os as [|o os IH]; cbn.
  - split; [discriminate | intros H; inversion H].
  - rewrite orb_true_iff, IH, elem_of_cons, Nat.eqb_eq. intuition congruence.
Qed.

Lemma has_ref_false r os : has_ref r os = false <-> r ∉ map obs_ref os.
Proof.
  rewrite <- has_ref_spec. destruct (has_ref r os); intuition congruence.
Qed.

Lemma addObserver_state o (e : GameEngine) :
  state_after (addObserver (Some o)) e
  = if has_ref (obs_ref o) (observers e) then e
    else set_observers (observers e ++ [o]) e.
Proof. reflexivity. Qed.

Lemma invocations_notifyObservers env eventType data (e : GameEngine) :
  invocations (emitted (notifyObservers env eventType data) e)
  = map (fun o => (obs_ref o,
                   mkEvent (gameId e) eventType (now env) (gameState e) data))
        (observers e).
Proof.
  unfold emitted. rewrite notifyObservers_trace. cbn [snd].
  apply (invocations_deliveries _ (observers e)).
Qed.

Lemma deliveries_count env eventType data (e : GameEngine) ref :
  deliveries_to ref (emitted (notifyObservers env eventType data) e)
  = length (filter (fun r => r = ref) (map obs_ref (observers e))).
Proof.
  unfold deliveries_to. rewrite invocations_notifyObservers.
  induction (observers e) as [|o os IH]; [reflexivity|].
  cbn [map]. rewrite !filter_cons. cbn [fst].
  destruct (decide (obs_ref o = ref)); cbn [length]; rewrite IH; reflexivity.
Qed.

Lemma count_absent (ref : nat) (rs : list nat) :
  ref ∉ rs -> length (filter (fun r => r = ref) rs) = 0%nat.
Proof.
  induction rs as [|r rs IH]; [reflexivity|].
  rewrite not_elem_of_cons. intros [Hne Hrs].
  rewrite filter_cons. destruct (decide (r = ref)); [congruence | apply IH, Hrs].
Qed.

Lemma count_once (ref : nat) (rs : list nat) :
  NoDup rs -> ref ∈ rs -> length (filter (fun r => r = ref) rs) = 1%nat.
Proof.
  induction 1 as [|r rs Hr Hnd IH]; [intros H; inversion H|].
  rewrite elem_of_cons, filter_cons. intros [-> | Hin].
  - rewrite decide_True by reflexivity. cbn. rewrite count_absent by exact Hr.
    reflexivity.
  - destruct (decide (r = ref)) as [-> | _]; [contradiction | apply IH, Hin].
Qed.

(** X11.  The observers are a [Set]: subscribing a function that is already
    subscribed changes nothing, so after [addObserver] every publish
    invokes the function exactly once, however often it was added.  An
    argument that is not a function makes [addObserver] throw and leaves
    the subscribers as they were. *)
Theorem X11_addObserver_subscribes_once env eventType data (e : GameEngine) o :
  distinct_observers e ->
  let e1 := state_after (addObserver (Some o)) e in
  state_after (addObserver (Some o)) e1 = e1 /\
  distinct_observers e1 /\
  deliveries_to (obs_ref o) (emitted (notifyObservers env eventType data) e1) = 1%nat /\
  addObserver None e = (Throw "Observer must be a function", e, []).
Proof.
  intros Hnd. cbn zeta. rewrite !addObserver_state.
  assert (has_ref (obs_ref o)
            (observers (if has_ref (obs_ref o) (observers e) then e
                        else set_observers (observers e ++ [o]) e)) = true) as Hin.
  { destruct (has_ref (obs_ref o) (observers e)) eqn:H; [exact H|].
    apply has_ref_spec. cbn. rewrite map_app. set_solver. }
  assert (distinct_observers (if has_ref (obs_ref o) (observers e) then e
                              else set_observers (observers e ++ [o]) e)) as Hnd'.
  { destruct (has_ref (obs_ref o) (observers e)) eqn:H; [exact Hnd|].
    unfold distinct_observers. cbn. rewrite map_app. apply NoDup_app.
    split; [exact Hnd|]. split; [|apply NoDup_singleton].
    intros x Hx. cbn. rewrite list_elem_of_singleton. intros ->.
    apply has_ref_false in H. contradiction. }
  split; [rewrite Hin; reflexivity|]. split; [exact Hnd'|]. split; [|reflexivity].
  rewrite deliveries_count. apply count_once; [exact Hnd' | apply has_ref_spec, Hin].
Qed.

Lemma X11_addObserver_subscribes_once_witness :
  distinct_observers engine_one /\
  deliveries_to 1
    (emitted (notifyObservers env0 "stateChanged" NoData)
       (state_after (addObserver (Some listener)) engine_one)) = 1%nat.
Proof.
  assert (distinct_observers engine_one) as Hnd.
  { unfold distinct_observers. cbn. apply NoDup_singleton. }
  split; [exact Hnd|].
  exact (proj1 (proj2 (proj2
    (X11_addObserver_subscribes_once env0 "stateChanged" NoData engine_one listener Hnd)))).
Defined.

Lemma removeObserver_state o (e : GameEngine) :
  state_after (removeObserver o) e
  = set_observers (filter (fun o' => obs_ref o' <> obs_ref o) (observers e)) e.
Proof. reflexivity. Qed.

(** X12.  After [removeObserver] no publish invokes the function again, while
    every other subscriber still receives every event, in the same order.
    Removing a function that is not subscribed leaves the subscribers as
    they were. *)
Theorem X12_removeObserver_unsubscribes env eventType data (e : GameEngine) o :
  let e' := state_after (removeObserver o) e in
  deliveries_to (obs_ref o) (emitted (notifyObservers env eventType data) e') = 0%nat /\
  invocations (emitted (notifyObservers env eventType data) e')
  = filter (fun x => x.1 <> obs_ref o)
      (invocations (emitted (notifyObservers env eventType data) e)) /\
  (has_ref (obs_ref o) (observers e) = false -> observers e' = observers e).
Proof.
  cbn zeta. rewrite removeObserver_state. split; [|split].
  - rewrite deliveries_count. apply count_absent. cbn.
    intros Hin. apply list_elem_of_fmap in Hin as (o' & Heq & Hin).
    apply list_elem_of_filter in Hin as [Hne _]. congruence.
  - rewrite !invocations_notifyObservers. cbn.
    induction (observers e) as [|o' os IH]; [reflexivity|].
    cbn [map]. rewrite !filter_cons. cbn [fst].
    destruct (decide (obs_ref o' <> obs_ref o)); cbn [map]; rewrite IH; reflexivity.
  - intros H. apply has_ref_false in H. cbn.
    induction (observers e) as [|o' os IH]; [reflexivity|].
    cbn [map] in H. rewrite not_elem_of_cons in H. destruct H as [Hne Hos].
    rewrite filter_cons, decide_True by congruence. rewrite IH by exact Hos.
    reflexivity.
Qed.

End Subscriptions.

(** ** The roster of the abstract engine *)

Section RosterMore.
Import GameEngine.

Lemma has_id_new_player env playerId playerData :
  playerData !! "id" = None ->
  has_id playerId (new_player env playerId playerData) = true.
Proof.
  intros H. unfold has_id, new_player. apply bool_decide_eq_true.
  rewrite lookup_insert_ne by discriminate.
  rewrite lookup_union_r by exact H. apply lookup_singleton_eq.
Qed.

Lemma has_id_overridden env playerId playerData v other :
  playerData !! "id" = Some v ->
  has_id other (new_player env playerId playerData)
  = bool_decide (v = VStr other).
Proof.
  intros H. unfold has_id, new_player.
  rewrite lookup_insert_ne by discriminate.
  rewrite (lookup_union_Some_l _ _ _ _ H).
  destruct (decide (v = VStr other)) as [-> | Hne].
  - rewrite !bool_decide_eq_true_2; reflexivity.
  - rewrite !bool_decide_eq_false_2; congruence.
Qed.

Lemma has_id_other env playerId playerData other :
  playerData !! "id" = None -> other <> playerId ->
  has_id other (new_player env playerId playerData) = false.
Proof.
  intros H Hne. unfold has_id, new_player. apply bool_decide_eq_false.
  rewrite lookup_insert_ne by discriminate.
  rewrite lookup_union_r by exact H. rewrite lookup_singleton_eq. congruence.
Qed.

Lemma find_app_absent {A} (f : A -> bool) xs ys :
  existsb f xs = false -> find f (xs ++ ys) = find f ys.
Proof.
  induction xs as [|x xs IH]; cbn; [reflexivity|].
  destruct (f x); cbn; [discriminate | exact IH].
Qed.

Lemma findIndex_app_absent {A} (f : A -> bool) xs ys :
  existsb f xs = false ->
  findIndex f (xs ++ ys) = (fun i => (length xs + i)%nat) <$> findIndex f ys.
Proof.
  induction xs as [|x xs IH]; cbn.
  - intros _. destruct (findIndex f ys); reflexivity.
  - destruct (f x); cbn; [discriminate|]. intros H. rewrite (IH H).
    destruct (findIndex f ys); reflexivity.
Qed.

Lemma delete_last {A} (xs : list A) x : delete (length xs) (xs ++ [x]) = xs.
Proof.
  induction xs as [|y xs IH]; [reflexivity|].
  cbn. f_equal. exact IH.
Qed.

Lemma addPlayer_state env playerId playerData (e : GameEngine) :
  hasPlayer playerId e = false ->
  state_after (addPlayer env playerId playerData) e
  = set_players (players e ++ [new_player env playerId playerData]) e /\
  (addPlayer env playerId playerData e).1.1 = Normal true.
Proof.
  intros H. destruct (addPlayer_fresh env playerId playerData e H) as (t & Ht & _).
  unfold state_after. rewrite Ht. split; reflexivity.
Qed.

(** X13.  A player added under an id that was free, with data that has no [id]
    property of its own, is found again: [hasPlayer] holds, [getPlayer]
    returns the object built from the data with [joinedAt] the time of
    the call, and no other id is affected. *)
Theorem X13_addPlayer_then_found env playerId playerData (e : GameEngine) :
  hasPlayer playerId e = false ->
  playerData !! "id" = None ->
  let e' := state_after (addPlayer env playerId playerData) e in
  hasPlayer playerId e' = true /\
  (exists player,
     getPlayer playerId e' = Some player /\
     player !! "id" = Some (VStr playerId) /\
     player !! "joinedAt" = Some (VNum (now env)) /\
     (forall k, k <> "id" -> k <> "joinedAt" -> player !! k = playerData !! k)) /\
  (forall other, other <> playerId -> hasPlayer other e' = hasPlayer other e).
Proof.
  intros Hfree Hid. cbn zeta.
  destruct (addPlayer_state env playerId playerData e Hfree) as [-> _].
  unfold hasPlayer, getPlayer. cbn [players set_players].
  split; [|split].
  - rewrite existsb_app. cbn. rewrite has_id_new_player by exact Hid.
    rewrite orb_true_r. reflexivity.
  - exists (new_player env playerId playerData). split; [|split; [|split]].
    + rewrite find_app_absent by exact Hfree. cbn.
      rewrite has_id_new_player by exact Hid. reflexivity.
    + pose proof (has_id_new_player env playerId playerData Hid) as H.
      unfold has_id in H. apply bool_decide_eq_true in H. exact H.
    + unfold new_player. apply lookup_insert_eq.
    + intros k Hk1 Hk2. unfold new_player.
      rewrite lookup_insert_ne by congruence.
      destruct (playerData !! k) as [v|] eqn:Hv.
      * apply lookup_union_Some_l, Hv.
      * rewrite lookup_union_r by exact Hv. apply lookup_singleton_ne. congruence.
  - intros other Hne. rewrite existsb_app. cbn.
    rewrite has_id_other by assumption. rewrite !orb_false_r. reflexivity.
Qed.

Lemma X13_addPlayer_then_found_witness :
  hasPlayer "alice" (constructor "demo") = false /\
  hasPlayer "alice" engine_alice = true.
Proof.
  split; [reflexivity|].
  exact (proj1 (X13_addPlayer_then_found env0 "alice" ∅ (constructor "demo")
                  eq_refl (lookup_empty _))).
Defined.

(** X14.  The object literal spreads [playerData] after [id]: data carrying an
    [id] of its own is stored under that id.  The duplicate check then
    never sees the id the caller passed, so the same call succeeds again
    and the roster grows by two. *)
Theorem X14_addPlayer_id_overridden env1 env2 playerId playerData v (e : GameEngine) :
  hasPlayer playerId e = false ->
  playerData !! "id" = Some v ->
  v <> VStr playerId ->
  let e1 := state_after (addPlayer env1 playerId playerData) e in
  let e2 := state_after (addPlayer env2 playerId playerData) e1 in
  (addPlayer env1 playerId playerData e).1.1 = Normal true /\
  hasPlayer playerId e1 = false /\
  (addPlayer env2 playerId playerData e1).1.1 = Normal true /\
  length (players e2) = (length (players e) + 2)%nat.
Proof.
  intros Hfree Hid Hne. cbn zeta.
  destruct (addPlayer_state env1 playerId playerData e Hfree) as [-> Hret1].
  assert (hasPlayer playerId
            (set_players (players e ++ [new_player env1 playerId playerData]) e)
          = false) as Hfree1.
  { unfold hasPlayer. cbn [players set_players]. rewrite existsb_app. cbn.
    rewrite (has_id_overridden env1 playerId playerData v playerId Hid).
    rewrite bool_decide_eq_false_2 by exact Hne.
    unfold hasPlayer in Hfree. rewrite Hfree. reflexivity. }
  destruct (addPlayer_state env2 playerId playerData _ Hfree1) as [-> Hret2].
  split; [exact Hret1|]. split; [exact Hfree1|]. split; [exact Hret2|].
  cbn. rewrite !length_app. cbn. lia.
Qed.

(** X15.  Removing a player that has just been added under a free id, with data
    that has no [id] of its own, gives back the roster as it was. *)
Theorem X15_addPlayer_removePlayer env1 env2 playerId playerData (e : GameEngine) :
  hasPlayer playerId e = false ->
  playerData !! "id" = None ->
  let e1 := state_after (addPlayer env1 playerId playerData) e in
  (removePlayer env2 playerId e1).1.1 = Normal true /\
  players (state_after (removePlayer env2 playerId) e1) = players e.
Proof.
  intros Hfree Hid. cbn zeta.
  destruct (addPlayer_state env1 playerId playerData e Hfree) as [-> _].
  assert (findIndex (has_id playerId)
            (players e ++ [new_player env1 playerId playerData])
          = Some (length (players e))) as Hi.
  { rewrite findIndex_app_absent by exact Hfree. cbn.
    rewrite has_id_new_player by exact Hid. cbn. f_equal. lia. }
  assert (exists t,
            removePlayer env2 playerId
              (set_players (players e ++ [new_player env1 playerId playerData]) e)
            = (Normal true, set_players (players e) e, t)) as [t Ht].
  { eexists. unfold removePlayer. js_step. cbn [players set_players]. rewrite Hi.
    js_step. rewrite delete_last.
    js_step_with notifyObservers_trace. reflexivity. }
  unfold state_after. rewrite Ht. split; reflexivity.
Qed.

Lemma nth_after {A} (before : list A) p q after :
  (before ++ p :: q :: after) !! ((length before + 1)
     mod length (before ++ p :: q :: after))%nat = Some q.
Proof.
  rewrite length_app. cbn [length].
  rewrite Nat.mod_small by lia.
  rewrite lookup_app_r by lia.
  replace (length before + 1 - length before)%nat with 1%nat by lia. reflexivity.
Qed.

(** X16.  [getNextPlayer] goes round the roster in insertion order: an id that
    is not in the roster gives [null]; otherwise the player after the
    first one with that id, and after the last player the first one
    again. *)
Theorem X16_getNextPlayer_round_robin (e : GameEngine) currentPlayerId :
  (hasPlayer currentPlayerId e = false -> getNextPlayer currentPlayerId e = None) /\
  (forall before p q rest,
     players e = before ++ p :: q :: rest ->
     existsb (has_id currentPlayerId) before = false ->
     has_id currentPlayerId p = true ->
     getNextPlayer currentPlayerId e = Some q) /\
  (forall before p,
     players e = before ++ [p] ->
     existsb (has_id currentPlayerId) before = false ->
     has_id currentPlayerId p = true ->
     getNextPlayer currentPlayerId e = head (before ++ [p])).
Proof.
  unfold getNextPlayer, hasPlayer. split; [|split].
  - intros H. rewrite (findIndex_absent _ _ H). reflexivity.
  - intros before p q rest Hp Hb Hid. rewrite Hp.
    rewrite findIndex_app_absent by exact Hb. cbn [findIndex]. rewrite Hid.
    cbn [fmap option_fmap option_map]. rewrite Nat.add_0_r. apply nth_after.
  - intros before p Hp Hb Hid. rewrite Hp.
    rewrite findIndex_app_absent by exact Hb. cbn [findIndex]. rewrite Hid.
    cbn [fmap option_fmap option_map]. rewrite Nat.add_0_r.
    rewrite length_app. cbn [length]. rewrite Nat.Div0.mod_same.
    destruct before; reflexivity.
Qed.

End RosterMore.

(** ** [SimpleARGameEngine]: placing and removing *)

Section SceneMore.
Import GameEngine SimpleARGameEngine.

Lemma invocations_notify n eventType ev os :
  invocations (Notifying n eventType :: concat (map (delivery ev) os))
  = map (fun o => (obs_ref o, ev)) os.
Proof. apply (invocations_deliveries ev os). Qed.

Lemma invocations_app (t1 t2 : list Effect) :
  invocations (t1 ++ t2) = invocations t1 ++ invocations t2.
Proof. unfold invocations. apply omap_app. Qed.

Lemma processAction_playing env playerId action data (e : SimpleARGameEngine) :
  validateState ["playing"] (base e) = true ->
  processAction env playerId action data e
  = if String.eqb action "placeObject"
    then handlePlaceObject env playerId data e
    else if String.eqb action "removeObject"
         then handleRemoveObject env playerId data e
         else (Normal false, e, []).
Proof.
  intros H. unfold processAction. rewrite bind_this, H. cbn [negb].
  destruct (String.eqb action "placeObject"); [reflexivity|].
  destruct (String.eqb action "removeObject"); reflexivity.
Qed.

Lemma processAction_place env playerId data (e : SimpleARGameEngine) :
  validateState ["playing"] (base e) = true ->
  processAction env playerId "placeObject" data e
  = handlePlaceObject env playerId data e.
Proof. intros H. rewrite processAction_playing by exact H. reflexivity. Qed.

Lemma processAction_remove env playerId data (e : SimpleARGameEngine) :
  validateState ["playing"] (base e) = true ->
  processAction env playerId "removeObject" data e
  = handleRemoveObject env playerId data e.
Proof. intros H. rewrite processAction_playing by exact H. reflexivity. Qed.

Lemma handlePlaceObject_appends env playerId data (e : SimpleARGameEngine) :
  validateState ["playing"] (base e) = true ->
  Z.of_nat (length (placedObjects e)) < maxObjects e ->
  let obj :=
    mkPlaced (object_id env) playerId
      (default (0, 0, 0) (d_position data))
      (or_str (d_type data) "cube")
      (or_num (d_color data) (random_color env))
      (now env) in
  exists t,
    processAction env playerId "placeObject" (Some data) e
    = (Normal true, mkSimple (base e) (placedObjects e ++ [obj]) (maxObjects e), t) /\
    published t = ["objectPlaced"] /\
    invocations t
    = map (fun o =>
             (obs_ref o,
              mkEvent (gameId (base e)) "objectPlaced" (now env) (gameState (base e))
                (ObjectData (Some obj) (S (length (placedObjects e))))))
          (observers (base e)).
Proof.
  intros Hplay Hroom obj. eexists. split; [|split].
  - rewrite processAction_place by exact Hplay.
    unfold handlePlaceObject. js_step.
    destruct (Z.geb_spec (Z.of_nat (length (placedObjects e))) (maxObjects e)) as [Hge|_];
      [lia|].
    js_step. js_step_with super_notifyObservers. reflexivity.
  - rewrite !published_app, published_notify. reflexivity.
  - rewrite !invocations_app, invocations_notify. cbn [invocations omap app].
    rewrite app_nil_r. cbn [base set_placedObjects placedObjects].
    rewrite length_app, Nat.add_1_r. reflexivity.
Qed.



Lemma handleRemoveObject_removes env playerId data (e : SimpleARGameEngine) i :
  findIndex (is_object (d_objectId data)) (placedObjects e) = Some i ->
  exists t,
    handleRemoveObject env playerId (Some data) e
    = (Normal true, mkSimple (base e) (delete i (placedObjects e)) (maxObjects e), t) /\
    published t = ["objectRemoved"] /\
    invocations t
    = map (fun o =>
             (obs_ref o,
              mkEvent (gameId (base e)) "objectRemoved" (now env) (gameState (base e))
                (ObjectData (placedObjects e !! i)
                   (length (delete i (placedObjects e))))))
          (observers (base e)).
Proof.
  intros Hi. eexists. split; [|split].
  - unfold handleRemoveObject. js_step. rewrite Hi.
    js_step. js_step_with super_notifyObservers. reflexivity.
  - rewrite !published_app, published_notify. reflexivity.
  - rewrite !invocations_app, invocations_notify. cbn [invocations omap app].
    rewrite app_nil_r. reflexivity.
Qed.

(** X18.  Removing the object that has just been placed, by the id it was
    given, returns [true] and gives back the scene as it was, provided no
    object already in the scene carries that id ([removeObject] removes
    the first object with the id). *)
Theorem X18_placeObject_removeObject env env' playerId playerId' data data'
    (e : SimpleARGameEngine) :
  validateState ["playing"] (base e) = true ->
  Z.of_nat (length (placedObjects e)) < maxObjects e ->
  existsb (is_object (Some (object_id env))) (placedObjects e) = false ->
  d_objectId data' = Some (object_id env) ->
  let e1 := state_after (processAction env playerId "placeObject" (Some data)) e in
  exists t,
    processAction env' playerId' "removeObject" (Some data') e1
    = (Normal true, mkSimple (base e) (placedObjects e) (maxObjects e), t) /\
    published t = ["objectRemoved"].
Proof.
  intros Hplay Hroom Hfresh Hid. cbn zeta.
  destruct (handlePlaceObject_appends env playerId data e Hplay Hroom) as (t1 & H1 & _).
  unfold state_after. rewrite H1. cbn [fst snd].
  rewrite processAction_remove by exact Hplay.
  match goal with |- context [mkSimple _ (_ ++ [?o]) _] => set (obj := o) end.
  assert (findIndex (is_object (d_objectId data')) (placedObjects e ++ [obj])
          = Some (length (placedObjects e))) as Hi.
  { rewrite Hid, findIndex_app_absent by exact Hfresh. cbn [findIndex is_object].
    subst obj. cbn [po_id]. rewrite String.eqb_refl. cbn. f_equal. lia. }
  destruct (handleRemoveObject_removes env' playerId' data'
              (mkSimple (base e) (placedObjects e ++ [obj]) (maxObjects e))
              (length (placedObjects e)) Hi) as (t & Ht & Hpub & _).
  exists t. split; [|exact Hpub].
  rewrite Ht. cbn [base placedObjects maxObjects]. rewrite delete_last. reflexivity.
Qed.

(** X19.  [removeObject] for an id no object of the scene carries, or with a
    data object that has no [objectId], returns [false], changes nothing
    and publishes nothing; otherwise it removes the first object with the
    id, and only that one. *)
Theorem X19_removeObject_first_match env playerId data (e : SimpleARGameEngine) :
  validateState ["playing"] (base e) = true ->
  (existsb (is_object (d_objectId data)) (placedObjects e) = false ->
   processAction env playerId "removeObject" (Some data) e = (Normal false, e, [])) /\
  (forall before obj rest,
     placedObjects e = before ++ obj :: rest ->
     existsb (is_object (d_objectId data)) before = false ->
     is_object (d_objectId data) obj = true ->
     exists t,
       processAction env playerId "removeObject" (Some data) e
       = (Normal true, mkSimple (base e) (before ++ rest) (maxObjects e), t) /\
       published t = ["objectRemoved"]).
Proof.
  intros Hplay. rewrite processAction_remove by exact Hplay. split.
  - intros H. apply findIndex_absent in H.
    unfold handleRemoveObject. js_step. rewrite H. reflexivity.
  - intros before obj rest Hp Hb Ho.
    assert (findIndex (is_object (d_objectId data)) (placedObjects e)
            = Some (length before)) as Hi.
    { rewrite Hp, findIndex_app_absent by exact Hb. cbn [findIndex]. rewrite Ho.
      cbn. f_equal. lia. }
    destruct (handleRemoveObject_removes env playerId data e (length before) Hi)
      as (t & Ht & Hpub & _).
    exists t. split; [|exact Hpub]. rewrite Ht, Hp. do 3 f_equal.
    clear. induction before as [|x xs IH]; [reflexivity|]. cbn. f_equal. exact IH.
Qed.

(** X20.  Reading a property of [undefined] throws: in a game that is playing,
    [placeObject] below capacity and [removeObject] called without a data
    object throw a [TypeError]; the engine is left as it was and nothing
    is published. *)
Theorem X20_action_without_data_throws env playerId (e : SimpleARGameEngine) :
  validateState ["playing"] (base e) = true ->
  (Z.of_nat (length (placedObjects e)) < maxObjects e ->
   processAction env playerId "placeObject" None e
   = (Throw "TypeError: Cannot read properties of undefined", e, [])) /\
  processAction env playerId "removeObject" None e
  = (Throw "TypeError: Cannot read properties of undefined", e, []).
Proof.
  intros Hplay. split.
  - intros Hroom. rewrite processAction_place by exact Hplay.
    apply handlePlaceObject_undefined, Hroom.
  - rewrite processAction_remove by exact Hplay. reflexivity.
Qed.

Lemma getValidActions_playing playerId (e : SimpleARGameEngine) :
  validateState ["playing"] (base e) = true ->
  getValidActions playerId e
  = if (0 <? length (placedObjects e))%nat then ["placeObject"; "removeObject"]
    else ["placeObject"].
Proof. intros H. unfold getValidActions. rewrite H. reflexivity. Qed.

(** X21.  [getValidActions] is empty exactly when the game is not playing, and
    an action it does not list is rejected: [processAction] with that
    action and a data object returns [false], changes nothing and
    publishes nothing. *)
Theorem X21_unlisted_action_rejected env playerId action data (e : SimpleARGameEngine) :
  (getValidActions playerId e = [] <-> validateState ["playing"] (base e) = false) /\
  (~ In action (getValidActions playerId e) ->
   processAction env playerId action (Some data) e = (Normal false, e, [])).
Proof.
  destruct (validateState ["playing"] (base e)) eqn:Hplay.
  - rewrite (getValidActions_playing playerId e Hplay). split.
    + destruct (0 <? length (placedObjects e))%nat; split; discriminate.
    + intros Hnot. rewrite processAction_playing by exact Hplay.
      destruct (String.eqb_spec action "placeObject") as [-> | _].
      { exfalso. apply Hnot. destruct (0 <? length (placedObjects e))%nat; left; reflexivity. }
      destruct (String.eqb_spec action "removeObject") as [-> | _]; [|reflexivity].
      destruct (placedObjects e) as [|obj objs] eqn:Hobjs.
      * unfold handleRemoveObject. js_step. rewrite Hobjs. reflexivity.
      * exfalso. apply Hnot. cbn. right. left. reflexivity.
  - split.
    + unfold getValidActions. rewrite Hplay. split; reflexivity.
    + intros _. apply processAction_rejected, Hplay.
Qed.

(** X22.  [cleanup] is the inherited one: it does not empty the scene, and
    [maxObjects] stays.  The engine it leaves can be started again by
    [initializeGame]; it then accepts actions as before, but its
    subscribers are gone, so no callback is invoked for what it
    publishes. *)
Theorem X22_cleanup_then_initializeGame env0 env1 env2 config playerId data
    (e : SimpleARGameEngine) :
  0 < or_num (cfg_maxObjects config) 10 ->
  let e1 := state_after (cleanup env0) e in
  let e2 := state_after (initializeGame env1 config) e1 in
  placedObjects e1 = placedObjects e /\
  maxObjects e1 = maxObjects e /\
  (initializeGame env1 config e1).1.1 = Normal true /\
  exists e3 t,
    processAction env2 playerId "placeObject" (Some data) e2 = (Normal true, e3, t) /\
    length (placedObjects e3) = 1%nat /\
    published t = ["objectPlaced"] /\
    invocations t = [].
Proof.
  intros Hmax. cbn zeta. unfold state_after at 2 3 4. rewrite cleanup_spec. cbn [fst snd].
  split; [reflexivity|]. split; [reflexivity|].
  match goal with |- context [initializeGame env1 config ?x] => set (e1 := x) end.
  destruct (initializeGame_spec env1 config e1) as [t1 Ht1].
  unfold state_after. rewrite Ht1. cbn [fst snd]. split; [reflexivity|].
  match goal with |- context [processAction _ _ _ _ ?x] => set (e2 := x) end.
  destruct (handlePlaceObject_appends env2 playerId data e2) as (t & Ht & Hpub & Hinv);
    [reflexivity | cbn; lia |].
  do 2 eexists. split; [exact Ht|]. split; [reflexivity|]. split; [exact Hpub|].
  rewrite Hinv. reflexivity.
Qed.


End SceneMore.

(** ** The first variant of the engine: an array of observers, a map of
    players *)

Section Variant1.
Import GameEngine1.

Lemma invocations_notifyObservers1 event data (e : GameEngine) :
  invocations (emitted (notifyObservers event data) e)
  = map (fun o => (obs_ref o, mkEvent event data (gameId e))) (observers e).
Proof.
  unfold emitted. rewrite notifyObservers_trace1. cbn [snd].
  apply (invocations_deliveries1 _ (observers e)).
Qed.

Lemma deliveries_count1 event data (e : GameEngine) ref :
  deliveries_to ref (emitted (notifyObservers event data) e)
  = length (filter (fun r => r = ref) (map obs_ref (observers e))).
Proof.
  unfold deliveries_to. rewrite invocations_notifyObservers1.
  induction (observers e) as [|o os IH]; [reflexivity|].
  cbn [map]. rewrite !filter_cons. cbn [fst].
  destruct (decide (obs_ref o = ref)); cbn [length]; rewrite IH; reflexivity.
Qed.

Lemma indexOf_count ref os i :
  indexOf ref os = Some i ->
  S (length (filter (fun r => r = ref) (map obs_ref (delete i os))))
  = length (filter (fun r => r = ref) (map obs_ref os)).
Proof.
  revert i. induction os as [|o os IH]; intros i; cbn [indexOf]; [discriminate|].
  destruct (Nat.eqb_spec (obs_ref o) ref) as [Heq|Hne].
  - intros [= <-]. cbn [delete list_delete map].
    rewrite (filter_cons _ (obs_ref o)), decide_True by exact Heq. reflexivity.
  - destruct (indexOf ref os) as [j|] eqn:Hj; [|discriminate].
    intros [= <-]. cbn [delete list_delete map].
    rewrite !(filter_cons _ (obs_ref o)), !decide_False by exact Hne.
    apply (IH j eq_refl).
Qed.

Lemma indexOf_present ref os :
  ref ∈ map obs_ref os -> exists i, indexOf ref os = Some i.
Proof.
  induction os as [|o os IH]; cbn [map indexOf]; [intros H; inversion H|].
  rewrite elem_of_cons. intros H.
  destruct (Nat.eqb_spec (obs_ref o) ref) as [_|Hne]; [eauto|].
  destruct H as [-> | H]; [congruence|].
  destruct (IH H) as [i ->]. eauto.
Qed.

Lemma indexOf_absent ref os : ref ∉ map obs_ref os -> indexOf ref os = None.
Proof.
  induction os as [|o os IH]; cbn [map indexOf]; [reflexivity|].
  rewrite not_elem_of_cons. intros [Hne H].
  destruct (Nat.eqb_spec (obs_ref o) ref) as [Heq|_]; [congruence|].
  rewrite (IH H). reflexivity.
Qed.

(** X24.  In the first variant the observers are an array: a function added
    twice is invoked twice by every publish, and [removeObserver] takes
    out one occurrence only, the first.  Removing a function that is not
    subscribed returns [false] and changes nothing. *)
Theorem X24_duplicate_subscription event data (e : GameEngine) o :
  let count e := deliveries_to (obs_ref o) (emitted (notifyObservers event data) e) in
  let e2 := state_after (addObserver (Some o)) (state_after (addObserver (Some o)) e) in
  (addObserver (Some o) e).1.1 = Normal true /\
  count e2 = (count e + 2)%nat /\
  (removeObserver o e2).1.1 = Normal true /\
  count (state_after (removeObserver o) e2) = (count e + 1)%nat /\
  (obs_ref o ∉ map obs_ref (observers e) -> removeObserver o e = (Normal false, e, [])).
Proof.
  intros count e2. subst count.
  change e2 with (set_observers ((observers e ++ [o]) ++ [o]) e). clear e2.
  cbv beta. split; [reflexivity|].
  rewrite !deliveries_count1. cbn [observers set_observers].
  assert (length (filter (fun r => r = obs_ref o)
                    (map obs_ref ((observers e ++ [o]) ++ [o])))
          = (length (filter (fun r => r = obs_ref o) (map obs_ref (observers e))) + 2)%nat)
    as Hcount.
  { rewrite !map_app, !filter_app, !length_app. cbn [map].
    rewrite !filter_cons, !decide_True by reflexivity. cbn. lia. }
  split; [exact Hcount|].
  destruct (indexOf_present (obs_ref o) ((observers e ++ [o]) ++ [o])) as [i Hi].
  { rewrite !map_app. set_solver. }
  assert (removeObserver o (set_observers ((observers e ++ [o]) ++ [o]) e)
          = (Normal true,
             set_observers (delete i ((observers e ++ [o]) ++ [o])) e, [])) as Hrem.
  { unfold removeObserver. rewrite bind_this. cbn [observers set_observers].
    rewrite Hi. reflexivity. }
  split; [rewrite Hrem; reflexivity|]. split.
  - unfold state_after. rewrite Hrem. cbn [fst snd observers set_observers].
    pose proof (indexOf_count _ _ _ Hi) as H. rewrite Hcount in H. lia.
  - intros Habsent. unfold removeObserver. rewrite bind_this.
    rewrite (indexOf_absent _ _ Habsent). reflexivity.
Qed.

(** X25.  The roster of the first variant is a map: a player added under an id
    is the one [getPlayer] returns for it, replacing any player stored
    under the id before; [removePlayer] then returns [true] and the id is
    gone.  If the id was free before, the roster is as it was. *)
Theorem X25_roster_map_round_trip env playerId playerData (e : GameEngine) :
  let e1 := state_after (addPlayer env playerId playerData) e in
  let e2 := state_after (removePlayer playerId) e1 in
  getPlayer playerId e1 = Some (new_player env playerId playerData) /\
  (forall other, other <> playerId -> getPlayer other e1 = getPlayer other e) /\
  (removePlayer playerId e1).1.1 = Normal true /\
  getPlayer playerId e2 = None /\
  players e2 = delete playerId (players e) /\
  (getPlayer playerId e = None -> players e2 = players e).
Proof.
  cbn zeta.
  destruct (addPlayer_spec1 env playerId playerData e) as (t1 & H1 & _).
  set (p := new_player env playerId playerData) in *.
  set (e1 := set_players (<[playerId:=p]> (players e)) e) in *.
  assert (state_after (addPlayer env playerId playerData) e = e1) as ->
    by (unfold state_after; rewrite H1; reflexivity).
  assert (players e1 !! playerId = Some p) as Hp by apply lookup_insert_eq.
  destruct (removePlayer_known1 playerId p e1 Hp) as (t2 & H2 & _).
  assert (state_after (removePlayer playerId) e1
          = set_players (delete playerId (players e1)) e1) as ->
    by (unfold state_after; rewrite H2; reflexivity).
  rewrite H2. unfold getPlayer. cbn [fst snd players set_players e1].
  split; [exact Hp|]. split; [intros other Hne; apply lookup_insert_ne; congruence|].
  split; [reflexivity|]. split; [apply lookup_delete_eq|].
  split; [apply delete_insert_eq|].
  intros Hfree. rewrite delete_insert_eq. apply delete_id. exact Hfree.
Qed.

End Variant1.

(** ** The interface and its engine *)

Section InterfaceMore.
Import GameEngine ARGameInterface.
Variable updateGameVisualization : Event -> option string.

Lemma on_engine_eq {A} (m : SimpleARGameEngine.M A) (w : World) r e t :
  m (engine w) = (r, e, t) -> on_engine m w = (r, set_engine e w, map OfEngine t).
Proof. intros H. unfold on_engine. rewrite H. reflexivity. Qed.

Lemma constructor_spec (w : World) :
  constructor updateGameVisualization w
  = (Normal tt,
     mkWorld (mkInterface "simple-ar" true false false false false false None)
       (SimpleARGameEngine.set_base
          (state_after
             (addObserver (Some (mkObserver (functions w) updateGameVisualization)))
             (SimpleARGameEngine.base (engine w)))
          (engine w))
       (S (functions w)), []).
Proof. reflexivity. Qed.

Lemma filter_fresh (n : nat) (os : list Observer) :
  Forall (fun o => (obs_ref o < n)%nat) os ->
  filter (fun o' => obs_ref o' <> n) os = os.
Proof.
  induction 1 as [|o os Ho _ IH]; [reflexivity|].
  rewrite filter_cons, decide_True by lia. rewrite IH. reflexivity.
Qed.

Lemma cleanup_spec_bound (w : World) :
  gameEngine (interface w) = true ->
  exists t,
    cleanup updateGameVisualization w
    = (Normal tt,
       mkWorld
         (mkInterface (gameId (interface w)) false (session (interface w)) false false
            (isActive (interface w)) (exitButton (interface w)) (reticle (interface w)))
         (SimpleARGameEngine.set_base
            (set_observers
               (filter (fun o' => obs_ref o' <> functions w)
                  (observers (SimpleARGameEngine.base (engine w))))
               (SimpleARGameEngine.base (engine w)))
            (engine w))
         (S (functions w)), t) /\
    t = if isActive (interface w) && session (interface w) then [SessionEnd] else [].
Proof.
  intros Hbound. destruct w as [[gid ge se sc ca act ex re] e n]. cbn in Hbound.
  subst ge. destruct act, se; eexists; split; reflexivity.
Qed.

(** X26.  [cleanup] asks the engine to remove a function that [bind] has just
    created, not the one the constructor subscribed.  So the callback of
    a constructed interface stays subscribed after [cleanup]: the
    observers of the engine are unchanged, every publish still invokes
    the callback once, and the interface, having dropped its reference
    to the engine, cannot unsubscribe any more. *)
Theorem X26_cleanup_does_not_unsubscribe env eventType data (w0 : World) :
  known_functions w0 ->
  let w1 := state_after (constructor updateGameVisualization) w0 in
  let w2 := state_after (cleanup updateGameVisualization) w1 in
  let callback := mkObserver (functions w0) updateGameVisualization in
  observers (SimpleARGameEngine.base (engine w1))
  = observers (SimpleARGameEngine.base (engine w0)) ++ [callback] /\
  (cleanup updateGameVisualization w1).1.1 = Normal tt /\
  observers (SimpleARGameEngine.base (engine w2))
  = observers (SimpleARGameEngine.base (engine w1)) /\
  gameEngine (interface w2) = false /\
  deliveries_to (functions w0)
    (emitted (notifyObservers env eventType data)
       (SimpleARGameEngine.base (engine w2))) = 1%nat.
Proof.
  intros Hknown. cbn zeta.
  assert (has_ref (functions w0) (observers (SimpleARGameEngine.base (engine w0)))
          = false) as Hfresh.
  { apply has_ref_false. intros Hin. apply list_elem_of_fmap in Hin as (o & Heq & Hin).
    unfold known_functions in Hknown. rewrite Forall_forall in Hknown.
    specialize (Hknown o Hin). lia. }
  assert (state_after (constructor updateGameVisualization) w0
          = mkWorld (mkInterface "simple-ar" true false false false false false None)
              (SimpleARGameEngine.set_base
                 (set_observers
                    (observers (SimpleARGameEngine.base (engine w0))
                     ++ [mkObserver (functions w0) updateGameVisualization])
                    (SimpleARGameEngine.base (engine w0)))
                 (engine w0))
              (S (functions w0))) as ->.
  { unfold state_after. rewrite constructor_spec. cbn [fst snd].
    rewrite addObserver_state. cbn [obs_ref]. rewrite Hfresh. reflexivity. }
  match goal with |- context [cleanup _ ?w] => set (w1 := w) end.
  destruct (cleanup_spec_bound w1 eq_refl) as (t & Hclean & _).
  unfold state_after. rewrite Hclean. cbn [fst snd].
  cbn [w1 engine interface functions SimpleARGameEngine.base
       SimpleARGameEngine.set_base observers set_observers gameEngine].
  assert (filter (fun o' => obs_ref o' <> S (functions w0))
            (observers (SimpleARGameEngine.base (engine w0))
             ++ [mkObserver (functions w0) updateGameVisualization])
          = observers (SimpleARGameEngine.base (engine w0))
            ++ [mkObserver (functions w0) updateGameVisualization]) as Hkeep.
  { apply filter_fresh. apply Forall_app. split.
    - eapply Forall_impl; [exact Hknown|]. cbn. intros; lia.
    - constructor; [cbn; lia | constructor]. }
  split; [reflexivity|]. split; [reflexivity|]. split; [exact Hkeep|].
  split; [reflexivity|].
  rewrite deliveries_count. cbn [observers set_observers]. rewrite Hkeep.
  rewrite map_app, filter_app, length_app. cbn [map].
  rewrite count_absent by (apply has_ref_false, Hfresh).
  rewrite filter_cons, decide_True by reflexivity. reflexivity.
Qed.

Lemma onSelect_forwards event color env (w : World) :
  onSelect event color env w
  = handleSelectInteraction color env w.
Proof.
  unfold onSelect. rewrite bind_this.
  assert (checkExitButtonTap event (interface w) = false) as ->.
  { unfold checkExitButtonTap. destruct (exitButton (interface w)); cbn;
      [destruct (inputSource event) as [[|]|]|]; reflexivity. }
  reflexivity.
Qed.

Lemma handleSelectInteraction_idle color env (w : World) :
  (forall r, reticle (interface w) = Some r -> visible r = false) ->
  handleSelectInteraction color env w = (Normal tt, w, []).
Proof.
  intros H. unfold handleSelectInteraction. rewrite bind_this.
  destruct (reticle (interface w)) as [r|]; [|reflexivity].
  rewrite (H r eq_refl). reflexivity.
Qed.

Lemma handleSelectInteraction_shape color env (w : World) :
  exists c w' t,
    handleSelectInteraction color env w = (c, w', map OfEngine t) /\
    interface w' = interface w /\
    functions w' = functions w.
Proof.
  unfold handleSelectInteraction. rewrite bind_this.
  destruct (reticle (interface w)) as [r|];
    [|exists (Normal tt), w, []; repeat split].
  destruct (visible r); [|exists (Normal tt), w, []; repeat split].
  destruct (gameEngine (interface w)); cbn [negb];
    [|eexists _, w, []; repeat split].
  unfold bind at 1, on_engine.
  destruct (SimpleARGameEngine.processAction _ _ _ _ (engine w)) as [[[b|msg] e'] t].
  - exists (Normal tt), (set_engine e' w), t. cbn. rewrite app_nil_r. repeat split.
  - exists (Throw msg), (set_engine e' w), t. repeat split.
Qed.

(** X27.  The test for a tap on the exit button answers [false] for every
    event, so a "select" input never ends the session: [onSelect] makes no
    call on the session and leaves the interface as it is; all it can do
    is pass the tap on to the engine.  Without a visible reticle it does
    nothing at all. *)
Theorem X27_select_never_exits event color env (w : World) :
  let w' := state_after (onSelect event color env) w in
  ~ In SessionEnd (emitted (onSelect event color env) w) /\
  interface w' = interface w /\
  functions w' = functions w /\
  ((forall r, reticle (interface w) = Some r -> visible r = false) ->
   onSelect event color env w = (Normal tt, w, [])).
Proof.
  cbn zeta. unfold state_after, emitted. rewrite onSelect_forwards.
  destruct (handleSelectInteraction_shape color env w) as (c & w' & t & H & Hi & Hf).
  split; [|split; [|split]].
  - rewrite H. cbn. intros Hin. apply in_map_iff in Hin as (x & Hx & _). discriminate.
  - rewrite H. exact Hi.
  - rewrite H. exact Hf.
  - apply handleSelectInteraction_idle.
Qed.


End InterfaceMore.

(** ** The factory and the registry *)

Section Factory.
Import GameEngine SimpleARGame.
Variable updateGameVisualization : Event -> option string.

Lemma createSimpleARGame_spec env functions :
  exists t,
    createSimpleARGame updateGameVisualization env functions
    = (Normal
         (<["ar_interface" :=
              AnInterface
                (ARGameInterface.mkInterface "simple-ar" true false false false false
                   false None)]>
            {["engine" :=
                AnEngine
                  (SimpleARGameEngine.mkSimple
                     (mkEngine "simple-ar" "playing"
                        [mkObserver functions updateGameVisualization]
                        [new_player env "local-player" {["name" := VStr "Local Player"]}]
                        None ∅)
                     [] 15)]}),
       ARGameInterface.mkWorld
         (ARGameInterface.mkInterface "simple-ar" true false false false false false None)
         (SimpleARGameEngine.mkSimple
            (mkEngine "simple-ar" "playing"
               [mkObserver functions updateGameVisualization]
               [new_player env "local-player" {["name" := VStr "Local Player"]}]
               None ∅)
            [] 15)
         (S functions), t).
Proof.
  unfold createSimpleARGame.
  set (cb := mkObserver functions updateGameVisualization).
  set (data := ({["name" := VStr "Local Player"]} : gmap string Val)).
  destruct (addPlayer_fresh env "local-player" data
              (mkEngine "simple-ar" "initialized" [cb] [] None ∅) eq_refl)
    as (t1 & H1 & _).
  destruct (initializeGame_spec env (SimpleARGameEngine.mkConfig (Some 15))
              (SimpleARGameEngine.mkSimple
                 (mkEngine "simple-ar" "initialized" [cb]
                    [new_player env "local-player" data] None ∅) [] 10))
    as [t2 H2].
  eexists.
  eapply bind_seq; [apply constructor_spec | | reflexivity].
  eapply bind_seq;
    [apply on_engine_eq; apply lift_eq; exact H1 | | reflexivity].
  eapply bind_seq; [apply on_engine_eq; exact H2 | | reflexivity].
  reflexivity.
Qed.

(** X29.  The object [createSimpleARGame] returns has the properties [engine]
    and [ar_interface], and none named [interface].  The engine in it is
    playing, with room for 15 objects, an empty scene, ["local-player"]
    in its roster and the callback of the interface subscribed.  Since
    [createGameInstance] reads [gameInstance.interface], a registry whose
    [simple-ar] descriptor uses this factory cannot create the game: the
    call returns [null], logs the error and no instance becomes active. *)
Theorem X29_factory_object_has_no_interface env functions
    see_engine see_interface env0 env1 :
  let registry :=
    state_after
      (GameRegistry.initializeGames env0
         (loaded see_engine see_interface
            (createSimpleARGame updateGameVisualization env functions).1.1))
      (GameRegistry.mkRegistry ∅ None None) in
  (exists gameInstance e,
     (createSimpleARGame updateGameVisualization env functions).1.1
     = Normal gameInstance /\
     gameInstance !! "interface" = None /\
     is_Some (gameInstance !! "ar_interface") /\
     gameInstance !! "engine" = Some (AnEngine e) /\
     gameState (SimpleARGameEngine.base e) = "playing" /\
     SimpleARGameEngine.maxObjects e = 15 /\
     SimpleARGameEngine.placedObjects e = [] /\
     hasPlayer "local-player" (SimpleARGameEngine.base e) = true /\
     observers (SimpleARGameEngine.base e)
     = [mkObserver functions updateGameVisualization]) /\
  GameRegistry.isGamePlayable "simple-ar" registry = true /\
  GameRegistry.createGameInstance env1 (Some "simple-ar") registry
  = (Normal None, registry,
     [GameRegistry.FactoryCalled "simple-ar";
      GameRegistry.ConsoleError
        "Invalid game instance created - missing engine or interface"]).
Proof.
  cbn zeta. destruct (createSimpleARGame_spec env functions) as [t ->].
  cbn [fst snd]. split; [|split].
  - do 2 eexists. split; [reflexivity|].
    split; [rewrite lookup_insert_ne by discriminate;
            apply lookup_singleton_ne; discriminate|].
    split; [rewrite lookup_insert_eq; eauto|].
    split; [rewrite lookup_insert_ne by discriminate; apply lookup_singleton_eq|].
    cbn. repeat split.
  - reflexivity.
  - unfold loaded, as_produced.
    rewrite !lookup_insert_ne by discriminate.
    rewrite lookup_singleton_eq, lookup_singleton_ne by discriminate.
    reflexivity.
Qed.

End Factory.

(** ** Instances *)

Lemma X1_register_requires_id_and_name_witness :
  truthy_str (GameRegistry.c_name config_nameless) = false /\
  GameRegistry.registerGame env0 config_nameless initial_registry
  = (Throw "Game registration requires id and name", initial_registry, []).
Proof.
  split; [reflexivity|].
  apply (proj1 (X1_register_requires_id_and_name env0 config_nameless initial_registry)).
  right. reflexivity.
Defined.


Lemma X9_selection_stays_registered_witness :
  GameRegistry.reachable registry_selected /\
  exists game,
    GameRegistry.getSelectedGame registry_selected = Some game /\
    GameRegistry.id game = "uno-ar".
Proof.
  assert (GameRegistry.reachable registry_selected) as Hreach.
  { unfold registry_selected.
    apply GameRegistry.reachable_call. exact (GameRegistry.reachable_new env0 None). }
  split; [exact Hreach|].
  apply (proj2 (X9_selection_stays_registered registry_selected Hreach) "uno-ar").
  reflexivity.
Defined.

Lemma X10_active_instance_from_catalog_witness :
  GameRegistry.reachable registry_running /\
  exists active,
    GameRegistry.activeGame registry_running = Some active /\
    GameRegistry.isPlayable (GameRegistry.ag_game active) = true.
Proof.
  assert (GameRegistry.reachable registry_running) as Hreach.
  { unfold registry_running.
    apply GameRegistry.reachable_call.
    exact (GameRegistry.reachable_new env0 (Some fresh_pair)). }
  split; [exact Hreach|].
  destruct (GameRegistry.activeGame registry_running) as [active|] eqn:Hactive;
    [|vm_compute in Hactive; discriminate].
  exists active. split; [reflexivity|].
  exact (proj1 (proj2 (proj2
    (X10_active_instance_from_catalog registry_running active Hreach Hactive)))).
Defined.

Lemma X12_removeObserver_unsubscribes_witness :
  GameEngine.deliveries_to 0
    (emitted (GameEngine.notifyObservers env0 "stateChanged" GameEngine.NoData)
       (state_after (GameEngine.removeObserver faulty) engine_two)) = 0%nat.
Proof.
  exact (proj1 (X12_removeObserver_unsubscribes env0 "stateChanged" GameEngine.NoData
                  engine_two faulty)).
Defined.

Lemma X14_addPlayer_id_overridden_witness :
  data_bob !! "id" = Some (VStr "bob") /\
  GameEngine.hasPlayer "alice"
    (state_after (GameEngine.addPlayer env0 "alice" data_bob)
       (GameEngine.constructor "demo")) = false.
Proof.
  split; [reflexivity|].
  refine (proj1 (proj2
    (X14_addPlayer_id_overridden env0 env1 "alice" data_bob (VStr "bob")
       (GameEngine.constructor "demo") _ _ _)));
    [reflexivity | reflexivity | discriminate].
Defined.

Lemma X15_addPlayer_removePlayer_witness :
  GameEngine.hasPlayer "bob" engine_alice = false /\
  GameEngine.players
    (state_after (GameEngine.removePlayer env0 "bob")
       (state_after (GameEngine.addPlayer env1 "bob" ∅) engine_alice))
  = GameEngine.players engine_alice.
Proof.
  split; [reflexivity|].
  refine (proj2 (X15_addPlayer_removePlayer env1 env0 "bob" ∅ engine_alice _ _));
    reflexivity.
Defined.

Lemma X16_getNextPlayer_round_robin_witness :
  GameEngine.hasPlayer "alice" engine_pair = true /\
  GameEngine.getNextPlayer "alice" engine_pair
  = Some (GameEngine.new_player env1 "bob" ∅) /\
  GameEngine.getNextPlayer "bob" engine_pair
  = Some (GameEngine.new_player env0 "alice" ∅).
Proof.
  split; [reflexivity|]. split.
  - refine (proj1 (proj2 (X16_getNextPlayer_round_robin engine_pair "alice"))
              [] (GameEngine.new_player env0 "alice" ∅) _ [] _ _ _); reflexivity.
  - refine (proj2 (proj2 (X16_getNextPlayer_round_robin engine_pair "bob"))
              [GameEngine.new_player env0 "alice" ∅] _ _ _ _); reflexivity.
Defined.

Lemma X18_placeObject_removeObject_witness :
  GameEngine.validateState ["playing"] (SimpleARGameEngine.base empty_scene) = true /\
  exists t,
    SimpleARGameEngine.processAction env0 "local-player" "removeObject"
      (Some remove_placed) playing_engine
    = (Normal true,
       SimpleARGameEngine.mkSimple (SimpleARGameEngine.base empty_scene) [] 2, t).
Proof.
  split; [reflexivity|].
  destruct (X18_placeObject_removeObject env1 env0 "local-player" "local-player"
              (SimpleARGameEngine.mkData (Some (1, 0, -2)) (Some "sphere") None None)
              remove_placed empty_scene)
    as (t & H & _); [reflexivity | vm_compute; reflexivity | reflexivity | reflexivity |].
  exists t. exact H.
Defined.

Lemma X19_removeObject_first_match_witness :
  GameEngine.validateState ["playing"] (SimpleARGameEngine.base playing_engine) = true /\
  exists t,
    SimpleARGameEngine.processAction env0 "local-player" "removeObject"
      (Some remove_placed) playing_engine
    = (Normal true,
       SimpleARGameEngine.mkSimple (SimpleARGameEngine.base playing_engine) [] 2, t).
Proof.
  split; [reflexivity|].
  destruct (SimpleARGameEngine.placedObjects playing_engine) as [|obj rest] eqn:Hobjs;
    [vm_compute in Hobjs; discriminate|].
  destruct (proj2 (X19_removeObject_first_match env0 "local-player" remove_placed
                     playing_engine eq_refl) [] obj rest Hobjs eq_refl)
    as (t & H & _).
  - vm_compute in Hobjs. injection Hobjs as <- <-. reflexivity.
  - exists t. rewrite H. vm_compute in Hobjs. injection Hobjs as <- <-. reflexivity.
Defined.

Lemma X20_action_without_data_throws_witness :
  GameEngine.validateState ["playing"] (SimpleARGameEngine.base playing_engine) = true /\
  SimpleARGameEngine.processAction env0 "local-player" "placeObject" None playing_engine
  = (Throw "TypeError: Cannot read properties of undefined", playing_engine, []).
Proof.
  split; [reflexivity|].
  apply (proj1 (X20_action_without_data_throws env0 "local-player" playing_engine eq_refl)).
  vm_compute. reflexivity.
Defined.

Lemma X21_unlisted_action_rejected_witness :
  ~ In "removeObject" (SimpleARGameEngine.getValidActions "local-player" empty_scene) /\
  SimpleARGameEngine.processAction env1 "local-player" "removeObject"
    (Some remove_placed) empty_scene
  = (Normal false, empty_scene, []).
Proof.
  assert (~ In "removeObject"
            (SimpleARGameEngine.getValidActions "local-player" empty_scene)) as Hnot.
  { vm_compute. intros [H|[]]. discriminate H. }
  split; [exact Hnot|].
  exact (proj2 (X21_unlisted_action_rejected env1 "local-player" "removeObject"
                  remove_placed empty_scene) Hnot).
Defined.

Lemma X22_cleanup_then_initializeGame_witness :
  0 < or_num (SimpleARGameEngine.cfg_maxObjects two_objects) 10 /\
  SimpleARGameEngine.placedObjects
    (state_after (SimpleARGameEngine.cleanup env0) playing_engine)
  = SimpleARGameEngine.placedObjects playing_engine.
Proof.
  assert (0 < or_num (SimpleARGameEngine.cfg_maxObjects two_objects) 10) as Hpos
    by (vm_compute; reflexivity).
  split; [exact Hpos|].
  exact (proj1 (X22_cleanup_then_initializeGame env0 env1 env0 two_objects "local-player"
                  remove_placed playing_engine Hpos)).
Defined.

Lemma X24_duplicate_subscription_witness :
  (GameEngine1.obs_ref (GameEngine1.mkObserver 7 (fun _ => None))
     ∉ map GameEngine1.obs_ref
         (GameEngine1.observers (GameEngine1.constructor "demo"))) /\
  GameEngine1.removeObserver (GameEngine1.mkObserver 7 (fun _ => None))
    (GameEngine1.constructor "demo")
  = (Normal false, GameEngine1.constructor "demo", []).
Proof.
  assert (GameEngine1.obs_ref (GameEngine1.mkObserver 7 (fun _ => None))
            ∉ map GameEngine1.obs_ref
                (GameEngine1.observers (GameEngine1.constructor "demo"))) as Habsent.
  { cbn. apply not_elem_of_nil. }
  split; [exact Habsent|].
  exact (proj2 (proj2 (proj2 (proj2
    (X24_duplicate_subscription "stateChanged" GameEngine1.NoData
       (GameEngine1.constructor "demo") (GameEngine1.mkObserver 7 (fun _ => None))))))
    Habsent).
Defined.

Lemma X25_roster_map_round_trip_witness :
  GameEngine1.getPlayer "bob" engine1_alice = None /\
  GameEngine1.players
    (state_after (GameEngine1.removePlayer "bob")
       (state_after (GameEngine1.addPlayer env1 "bob" ∅) engine1_alice))
  = GameEngine1.players engine1_alice.
Proof.
  assert (GameEngine1.getPlayer "bob" engine1_alice = None) as Hfree by reflexivity.
  split; [exact Hfree|].
  exact (proj2 (proj2 (proj2 (proj2 (proj2
    (X25_roster_map_round_trip env1 "bob" ∅ engine1_alice))))) Hfree).
Defined.

Lemma X26_cleanup_does_not_unsubscribe_witness :
  ARGameInterface.known_functions world0 /\
  GameEngine.deliveries_to 0
    (emitted (GameEngine.notifyObservers env1 "stateChanged" GameEngine.NoData)
       (SimpleARGameEngine.base
          (ARGameInterface.engine
             (state_after (ARGameInterface.cleanup quiet)
                (state_after (ARGameInterface.constructor quiet) world0))))) = 1%nat.
Proof.
  assert (ARGameInterface.known_functions world0) as Hknown by constructor.
  split; [exact Hknown|].
  exact (proj2 (proj2 (proj2 (proj2
    (X26_cleanup_does_not_unsubscribe quiet env1 "stateChanged" GameEngine.NoData
       world0 Hknown))))).
Defined.

Lemma X27_select_never_exits_witness :
  (forall r,
     ARGameInterface.reticle (ARGameInterface.interface world0) = Some r ->
     ARGameInterface.visible r = false) /\
  ARGameInterface.onSelect (ARGameInterface.mkSelect (Some true)) 255 env0 world0
  = (Normal tt, world0, []).
Proof.
  assert (forall r,
            ARGameInterface.reticle (ARGameInterface.interface world0) = Some r ->
            ARGameInterface.visible r = false) as Hidle
    by (intros r H; discriminate H).
  split; [exact Hidle|].
  exact (proj2 (proj2 (proj2
    (X27_select_never_exits (ARGameInterface.mkSelect (Some true)) 255 env0 world0)))
    Hidle).
Defined.

